(** * Geofence checker front end: the [App] component

    A shallow embedding of [frontend/src/App.js] and the properties of its
    location-acquisition and verification session.  The file holds two
    versions of the component: the enhanced one (location history, continuous
    monitoring, progress bar, confidence colours), modelled first and in
    full, and the simple one it grew from, modelled in [Module Simple].

    [App] is a React function component.  Three facts about React shape the
    model:

    - every [useState] variable is a constant of one render: a function
      defined in the component body reads the values of the render it was
      created in.  Such a render is a [State] record, and every handler takes
      the render it closes over as its first argument;
    - a setter called with a value replaces the stored value, a setter called
      with a function applies it to the latest stored value, whatever render
      the caller belongs to;
    - a [useRef] cell is one mutable object shared by all renders.

    The browser side (interval timers, geolocation watches, pending requests)
    is part of the [World] the handlers act on. *)

From Stdlib Require Import ZArith Lia PrimFloat.
From stdpp Require Import base option list gmap strings.

Open Scope string_scope.
Open Scope list_scope.
Open Scope Z_scope.

(** ** JavaScript primitives used by the component *)

(** [Array.prototype.slice(start)] with the end left out: a negative [start]
    counts from the end, and both cases are clamped to the array. *)
Definition slice {A} (start : Z) (l : list A) : list A :=
  let len := Z.of_nat (length l) in
  let k := if start <? 0 then Z.max (len + start) 0 else Z.min start len in
  drop (Z.to_nat k) l.

(** [s.startsWith(p)]. *)
Fixpoint startsWith (p s : string) : bool :=
  match p, s with
  | EmptyString, _ => true
  | String a p', String b s' => if Ascii.eqb a b then startsWith p' s' else false
  | String _ _, EmptyString => false
  end.

(** [s.includes(p)]: [p] occurs in [s] at some position.  The strings are
    byte strings; the patterns of this program are ASCII, for which
    containment of bytes and of UTF-16 code units agree. *)
Fixpoint includes (s p : string) : bool :=
  startsWith p s ||
  match s with
  | EmptyString => false
  | String _ s' => includes s' p
  end.

(** Truthiness of a string: only [""] is falsy. *)
Definition truthy_string (s : string) : bool :=
  match s with EmptyString => false | _ => true end.

(** [s || undefined]. *)
Definition or_undefined (s : string) : option string :=
  if truthy_string s then Some s else None.

(** The string of the given bytes. *)
Definition bytes (l : list nat) : string :=
  foldr (fun n s => String (Ascii.ascii_of_nat n) s) EmptyString l.

(** The white space and line terminators of JavaScript, in UTF-8: tab, line
    feed, vertical tab, form feed, carriage return, space, U+00A0, U+1680,
    U+2000 to U+200A, U+2028, U+2029, U+202F, U+205F, U+3000 and U+FEFF. *)
Definition whiteSpace : list string :=
  (bytes <$> [[9]; [10]; [11]; [12]; [13]; [32]; [194; 160]; [225; 154; 128]]%nat)
  ++ ((fun n => bytes [226; 128; n]%nat) <$> seq 128 11)
  ++ (bytes <$> [[226; 128; 168]; [226; 128; 169]; [226; 128; 175];
                 [226; 129; 159]; [227; 128; 128]; [239; 187; 191]]%nat).

(** [s] without its first [n] bytes. *)
Fixpoint dropString (n : nat) (s : string) : string :=
  match n, s with
  | S n', String _ s' => dropString n' s'
  | _, _ => s
  end.

(** [s.trimStart()]: white space is removed from the front as long as there
    is some; every removal takes at least one byte, so the length of [s] is
    fuel enough.  The component only tests [!s.trim()], and [s.trim()] is
    empty exactly when [s.trimStart()] is. *)
Fixpoint trimStart_from (fuel : nat) (s : string) : string :=
  match fuel with
  | O => s
  | S fuel' =>
      match List.find (fun w => startsWith w s) whiteSpace with
      | Some w => trimStart_from fuel' (dropString (String.length w) s)
      | None => s
      end
  end.

Definition trimStart (s : string) : string :=
  trimStart_from (String.length s) s.

(** ** JSON documents

    [JNum] is a number read from the device or the service, [JInt] an
    integer time stamp of [Date.now()]. *)

#[local] Unset Elimination Schemes.
Inductive json : Type :=
  | JNull
  | JBool (b : bool)
  | JNum (x : float)
  | JInt (z : Z)
  | JStr (s : string)
  | JArr (items : list json)
  | JObj (fields : list (string * json)).
#[local] Set Elimination Schemes.

(** [JSON.stringify] of a number: [null] when it is not finite, and [0] for
    both zeros. *)
Definition json_of_number (x : float) : json :=
  if is_nan x || is_infinity x then JNull
  else if is_zero x then JNum 0
  else JNum x.

(** [JSON.stringify] of an object literal: a property whose value is
    [undefined] (here [None]) is left out, the others keep their order.  The
    result is the JSON document; its text is not modelled. *)
Definition stringify (props : list (string * option json)) : json :=
  JObj (omap (fun kv => pair kv.1 <$> kv.2) props).

Fixpoint field (k : string) (fs : list (string * json)) : option json :=
  match fs with
  | [] => None
  | (k', v) :: fs' => if String.eqb k k' then Some v else field k fs'
  end.

(** The member [k] of a document, [None] when it is absent. *)
Definition member (k : string) (j : json) : option json :=
  match j with
  | JObj fs => field k fs
  | _ => None
  end.

(** ** Data model *)

(** [position.coords] as the callbacks read it. *)
Record Coords := {
  latitude : float;
  longitude : float;
  coords_accuracy : float
}.

(** The [newLocation] object of the geolocation callbacks. *)
Record Sample := {
  lat : float;
  lng : float;
  accuracy : float;
  timestamp : Z
}.

(** Body of a successful [/building] response, with the members the
    service sends: [name], [formatted_address], [lat], [lng] and the optional
    [type]. *)
Record Building := {
  bld_name : string;
  bld_formatted_address : string;
  bld_lat : float;
  bld_lng : float;
  bld_type : option string
}.

Record LocationQuality := {
  lq_confidence : string;
  lq_accuracy : option float;
  lq_stability : option string
}.

(** Body of a successful [/check-location] response. *)
Record CheckResult := {
  is_within_range : bool;
  distance : float;
  confidence_level : option string;
  location_quality : LocationQuality
}.

(** A value [JSON.parse] can give. *)
#[local] Unset Elimination Schemes.
Inductive JSValue : Type :=
  | VNull
  | VBool (b : bool)
  | VNum (x : float)
  | VStr (s : string)
  | VArr (items : list JSValue)
  | VObj (members : list (string * JSValue)).
#[local] Set Elimination Schemes.

(** Truthiness: [null], [false], the zeros, [NaN] and [""] are falsy, every
    array and object is truthy. *)
Definition truthy (v : JSValue) : bool :=
  match v with
  | VNull => false
  | VBool b => b
  | VNum x => negb (is_zero x || is_nan x)
  | VStr s => truthy_string s
  | VArr _ | VObj _ => true
  end.

(** [String(v)], which [new Error(v)] stores as the message: an array is
    its elements joined by commas, [null] among them giving nothing, and an
    object is ["[object Object]"].  [toStr] is [Number::toString]. *)
Fixpoint toString (toStr : float -> string) (v : JSValue) : string :=
  match v with
  | VNull => "null"
  | VBool b => if b then "true" else "false"
  | VNum x => toStr x
  | VStr s => s
  | VArr items =>
      String.concat ","
        (List.map (fun item => match item with
                               | VNull => ""
                               | _ => toString toStr item
                               end) items)
  | VObj _ => "[object Object]"
  end.

(** The parsed body of a failed response, [errorData], as far as the
    handlers look at it, which is what [errorData.detail] gives:
    - the body is [null], and reading a property of it throws a [TypeError];
      [message] is the wording of the JavaScript engine;
    - the body is any other value without a [detail] property, and the
      result is [undefined];
    - the body is an object with a [detail] member, of any JSON type. *)
Inductive ErrorData : Type :=
  | NullBody (message : string)
  | NoDetail
  | Detail (value : JSValue).

(** What [await fetch(...)] followed by [await response.json()] can give:
    the fetch rejects (no answer from the network), or it resolves with
    [response.ok] false or true, and then reading the body rejects (it is not
    JSON) or gives the parsed value.  A rejection carries the [message] of
    its error. *)
Inductive Body (A : Type) : Type :=
  | BodyRejected (message : string)
  | BodyParsed (value : A).
Arguments BodyRejected {A} message.
Arguments BodyParsed {A} value.

Inductive FetchResult (A : Type) : Type :=
  | FetchRejected (message : string)
  | NotOk (body : Body ErrorData)
  | Ok (body : Body A).
Arguments FetchRejected {A} message.
Arguments NotOk {A} body.
Arguments Ok {A} body.

(** A call of [fetch]. *)
Record Request := {
  url : string;
  method : string;
  headers : list (string * string);
  body : json
}.

(** The options object of the geolocation calls. *)
Record PositionOptions := {
  enableHighAccuracy : bool;
  timeout : Z;
  maximumAge : Z
}.

(** The [useState] variables of one render. *)
Record State := {
  buildingName : string;
  city : string;
  country : string;
  building : option Building;
  userLocation : option Sample;
  locationHistory : list Sample;
  checkResult : option CheckResult;
  loading : bool;
  error : option string;
  mapUrl : option string;
  watchId : option Z;
  isMonitoring : bool;
  locatingProgress : Z
}.

(** The values of the first render. *)
Definition initialState : State := {|
  buildingName := "";
  city := "";
  country := "";
  building := None;
  userLocation := None;
  locationHistory := [];
  checkResult := None;
  loading := false;
  error := None;
  mapUrl := None;
  watchId := None;
  isMonitoring := false;
  locatingProgress := 0
|}.

Definition MAX_HISTORY_POINTS : Z := 10.
Definition API_URL : string := "http://localhost:8000/api".

(** ** The world the handlers act on *)

(** A geolocation watch: the callbacks given to [watchPosition] are closures
    of the render that registered them. *)
Record Watch := {
  watch_render : State;
  watch_options : PositionOptions
}.

Record World := {
  st : State;                       (* the stored [useState] values *)
  locatingTimer : option Z;         (* [locatingTimer.current] *)
  intervals : gmap Z Z;             (* running [setInterval] timers: id, delay *)
  watches : gmap Z Watch;           (* registered [watchPosition] watches *)
  acquisitions : list PositionOptions;  (* pending [getCurrentPosition] calls *)
  requests : list Request;          (* the calls of [fetch], oldest first *)
  awaitingBuilding : nat;           (* [searchBuilding] calls suspended at [await] *)
  awaitingCheck : nat;              (* [checkLocation] calls suspended at [await] *)
  geolocation : bool;               (* [navigator.geolocation] is present *)
  nextTimer : Z;                    (* the id the next [setInterval] returns *)
  nextWatch : Z                     (* the id the next [watchPosition] returns *)
}.

Definition initialWorld (geo : bool) : World := {|
  st := initialState;
  locatingTimer := None;
  intervals := ∅;
  watches := ∅;
  acquisitions := [];
  requests := [];
  awaitingBuilding := 0;
  awaitingCheck := 0;
  geolocation := geo;
  nextTimer := 1;
  nextWatch := 1
|}.

(** A statement: it transforms the world. *)
Definition Act : Type := World -> World.

Definition skip : Act := fun w => w.
Definition seq_act (a b : Act) : Act := fun w => b (a w).

Declare Scope act_scope.
Delimit Scope act_scope with act.
Bind Scope act_scope with Act.
Notation "a >> b" := (seq_act a b)
  (at level 90, right associativity) : act_scope.

(** Replacing the stored React state. *)
Definition modify (f : State -> State) : Act := fun w =>
  {| st := f (st w); locatingTimer := locatingTimer w;
     intervals := intervals w; watches := watches w;
     acquisitions := acquisitions w; requests := requests w;
     awaitingBuilding := awaitingBuilding w; awaitingCheck := awaitingCheck w;
     geolocation := geolocation w;
     nextTimer := nextTimer w; nextWatch := nextWatch w |}.

(** *** The setters of [useState] *)

Definition setBuildingName (v : string) : Act := modify (fun s =>
  {| buildingName := v; city := city s; country := country s;
     building := building s; userLocation := userLocation s;
     locationHistory := locationHistory s; checkResult := checkResult s;
     loading := loading s; error := error s; mapUrl := mapUrl s;
     watchId := watchId s; isMonitoring := isMonitoring s;
     locatingProgress := locatingProgress s |}).

Definition setCity (v : string) : Act := modify (fun s =>
  {| buildingName := buildingName s; city := v; country := country s;
     building := building s; userLocation := userLocation s;
     locationHistory := locationHistory s; checkResult := checkResult s;
     loading := loading s; error := error s; mapUrl := mapUrl s;
     watchId := watchId s; isMonitoring := isMonitoring s;
     locatingProgress := locatingProgress s |}).

Definition setCountry (v : string) : Act := modify (fun s =>
  {| buildingName := buildingName s; city := city s; country := v;
     building := building s; userLocation := userLocation s;
     locationHistory := locationHistory s; checkResult := checkResult s;
     loading := loading s; error := error s; mapUrl := mapUrl s;
     watchId := watchId s; isMonitoring := isMonitoring s;
     locatingProgress := locatingProgress s |}).

Definition setBuilding (v : option Building) : Act := modify (fun s =>
  {| buildingName := buildingName s; city := city s; country := country s;
     building := v; userLocation := userLocation s;
     locationHistory := locationHistory s; checkResult := checkResult s;
     loading := loading s; error := error s; mapUrl := mapUrl s;
     watchId := watchId s; isMonitoring := isMonitoring s;
     locatingProgress := locatingProgress s |}).

Definition setUserLocation (v : option Sample) : Act := modify (fun s =>
  {| buildingName := buildingName s; city := city s; country := country s;
     building := building s; userLocation := v;
     locationHistory := locationHistory s; checkResult := checkResult s;
     loading := loading s; error := error s; mapUrl := mapUrl s;
     watchId := watchId s; isMonitoring := isMonitoring s;
     locatingProgress := locatingProgress s |}).

(** [setLocationHistory(prev => ...)]: the updater form, the only one used. *)
Definition setLocationHistory (f : list Sample -> list Sample) : Act :=
  modify (fun s =>
  {| buildingName := buildingName s; city := city s; country := country s;
     building := building s; userLocation := userLocation s;
     locationHistory := f (locationHistory s); checkResult := checkResult s;
     loading := loading s; error := error s; mapUrl := mapUrl s;
     watchId := watchId s; isMonitoring := isMonitoring s;
     locatingProgress := locatingProgress s |}).

Definition setCheckResult (v : option CheckResult) : Act := modify (fun s =>
  {| buildingName := buildingName s; city := city s; country := country s;
     building := building s; userLocation := userLocation s;
     locationHistory := locationHistory s; checkResult := v;
     loading := loading s; error := error s; mapUrl := mapUrl s;
     watchId := watchId s; isMonitoring := isMonitoring s;
     locatingProgress := locatingProgress s |}).

Definition setLoading (v : bool) : Act := modify (fun s =>
  {| buildingName := buildingName s; city := city s; country := country s;
     building := building s; userLocation := userLocation s;
     locationHistory := locationHistory s; checkResult := checkResult s;
     loading := v; error := error s; mapUrl := mapUrl s;
     watchId := watchId s; isMonitoring := isMonitoring s;
     locatingProgress := locatingProgress s |}).

Definition setError (v : option string) : Act := modify (fun s =>
  {| buildingName := buildingName s; city := city s; country := country s;
     building := building s; userLocation := userLocation s;
     locationHistory := locationHistory s; checkResult := checkResult s;
     loading := loading s; error := v; mapUrl := mapUrl s;
     watchId := watchId s; isMonitoring := isMonitoring s;
     locatingProgress := locatingProgress s |}).

Definition setMapUrl (v : option string) : Act := modify (fun s =>
  {| buildingName := buildingName s; city := city s; country := country s;
     building := building s; userLocation := userLocation s;
     locationHistory := locationHistory s; checkResult := checkResult s;
     loading := loading s; error := error s; mapUrl := v;
     watchId := watchId s; isMonitoring := isMonitoring s;
     locatingProgress := locatingProgress s |}).

Definition setWatchId (v : option Z) : Act := modify (fun s =>
  {| buildingName := buildingName s; city := city s; country := country s;
     building := building s; userLocation := userLocation s;
     locationHistory := locationHistory s; checkResult := checkResult s;
     loading := loading s; error := error s; mapUrl := mapUrl s;
     watchId := v; isMonitoring := isMonitoring s;
     locatingProgress := locatingProgress s |}).

Definition setIsMonitoring (v : bool) : Act := modify (fun s =>
  {| buildingName := buildingName s; city := city s; country := country s;
     building := building s; userLocation := userLocation s;
     locationHistory := locationHistory s; checkResult := checkResult s;
     loading := loading s; error := error s; mapUrl := mapUrl s;
     watchId := watchId s; isMonitoring := v;
     locatingProgress := locatingProgress s |}).

Definition setLocatingProgress (v : Z) : Act := modify (fun s =>
  {| buildingName := buildingName s; city := city s; country := country s;
     building := building s; userLocation := userLocation s;
     locationHistory := locationHistory s; checkResult := checkResult s;
     loading := loading s; error := error s; mapUrl := mapUrl s;
     watchId := watchId s; isMonitoring := isMonitoring s;
     locatingProgress := v |}).

(** *** The browser *)

(** [locatingTimer.current = v]. *)
Definition assignLocatingTimer (v : option Z) : Act := fun w =>
  {| st := st w; locatingTimer := v;
     intervals := intervals w; watches := watches w;
     acquisitions := acquisitions w; requests := requests w;
     awaitingBuilding := awaitingBuilding w; awaitingCheck := awaitingCheck w;
     geolocation := geolocation w;
     nextTimer := nextTimer w; nextWatch := nextWatch w |}.

(** A statement that reads [locatingTimer.current]. *)
Definition readLocatingTimer (k : option Z -> Act) : Act := fun w =>
  k (locatingTimer w) w.

(** [setInterval(callback, delay)]; [k] receives the returned id.  The only
    callback of the component is [onInterval] below. *)
Definition setInterval (delay : Z) (k : Z -> Act) : Act := fun w =>
  let id := nextTimer w in
  k id {| st := st w; locatingTimer := locatingTimer w;
          intervals := <[id := delay]> (intervals w); watches := watches w;
          acquisitions := acquisitions w; requests := requests w;
          awaitingBuilding := awaitingBuilding w;
          awaitingCheck := awaitingCheck w;
          geolocation := geolocation w;
          nextTimer := id + 1; nextWatch := nextWatch w |}.

(** [clearInterval(id)]; nothing happens for [null] or an id not running. *)
Definition clearInterval (id : option Z) : Act := fun w =>
  match id with
  | Some i =>
      {| st := st w; locatingTimer := locatingTimer w;
         intervals := delete i (intervals w); watches := watches w;
         acquisitions := acquisitions w; requests := requests w;
         awaitingBuilding := awaitingBuilding w;
         awaitingCheck := awaitingCheck w;
         geolocation := geolocation w;
         nextTimer := nextTimer w; nextWatch := nextWatch w |}
  | None => w
  end.

(** [navigator.geolocation.watchPosition(success, error, options)] called in
    render [r]; [k] receives the returned id. *)
Definition watchPosition (r : State) (o : PositionOptions) (k : Z -> Act) : Act :=
  fun w =>
  let id := nextWatch w in
  k id {| st := st w; locatingTimer := locatingTimer w;
          intervals := intervals w;
          watches := <[id := {| watch_render := r; watch_options := o |}]> (watches w);
          acquisitions := acquisitions w; requests := requests w;
          awaitingBuilding := awaitingBuilding w;
          awaitingCheck := awaitingCheck w;
          geolocation := geolocation w;
          nextTimer := nextTimer w; nextWatch := id + 1 |}.

(** [navigator.geolocation.clearWatch(id)]. *)
Definition clearWatch (id : Z) : Act := fun w =>
  {| st := st w; locatingTimer := locatingTimer w;
     intervals := intervals w; watches := delete id (watches w);
     acquisitions := acquisitions w; requests := requests w;
     awaitingBuilding := awaitingBuilding w; awaitingCheck := awaitingCheck w;
     geolocation := geolocation w;
     nextTimer := nextTimer w; nextWatch := nextWatch w |}.

(** [navigator.geolocation.getCurrentPosition(success, error, options)]. *)
Definition getCurrentPosition (o : PositionOptions) : Act := fun w =>
  {| st := st w; locatingTimer := locatingTimer w;
     intervals := intervals w; watches := watches w;
     acquisitions := acquisitions w ++ [o]; requests := requests w;
     awaitingBuilding := awaitingBuilding w; awaitingCheck := awaitingCheck w;
     geolocation := geolocation w;
     nextTimer := nextTimer w; nextWatch := nextWatch w |}.

(** One pending [getCurrentPosition] call has run one of its callbacks. *)
Definition acquisitionSettled : Act := fun w =>
  {| st := st w; locatingTimer := locatingTimer w;
     intervals := intervals w; watches := watches w;
     acquisitions := tail (acquisitions w); requests := requests w;
     awaitingBuilding := awaitingBuilding w; awaitingCheck := awaitingCheck w;
     geolocation := geolocation w;
     nextTimer := nextTimer w; nextWatch := nextWatch w |}.

(** Which handler is suspended at an [await fetch(...)]. *)
Inductive Awaiting := AwaitBuilding | AwaitCheck.

(** [await fetch(url, init)]: the request leaves and the caller is
    suspended until the result arrives. *)
Definition fetch (q : Request) (who : Awaiting) : Act := fun w =>
  {| st := st w; locatingTimer := locatingTimer w;
     intervals := intervals w; watches := watches w;
     acquisitions := acquisitions w; requests := requests w ++ [q];
     awaitingBuilding :=
       (match who with AwaitBuilding => S (awaitingBuilding w)
                     | AwaitCheck => awaitingBuilding w end);
     awaitingCheck :=
       (match who with AwaitCheck => S (awaitingCheck w)
                     | AwaitBuilding => awaitingCheck w end);
     geolocation := geolocation w;
     nextTimer := nextTimer w; nextWatch := nextWatch w |}.

(** The suspended handler [who] resumes. *)
Definition resumed (who : Awaiting) : Act := fun w =>
  {| st := st w; locatingTimer := locatingTimer w;
     intervals := intervals w; watches := watches w;
     acquisitions := acquisitions w; requests := requests w;
     awaitingBuilding :=
       (match who with AwaitBuilding => Nat.pred (awaitingBuilding w)
                     | AwaitCheck => awaitingBuilding w end);
     awaitingCheck :=
       (match who with AwaitCheck => Nat.pred (awaitingCheck w)
                     | AwaitBuilding => awaitingCheck w end);
     geolocation := geolocation w;
     nextTimer := nextTimer w; nextWatch := nextWatch w |}.

(** [if (!navigator.geolocation) { absent } else { present }]. *)
Definition ifGeolocation (present absent : Act) : Act := fun w =>
  if geolocation w then present w else absent w.

(** The part of a [try] block up to the parsed body: the message of the
    error that reaches [catch], or the data.  An error reaches [catch] when
    [fetch] or [response.json()] rejects, when [errorData] is [null] and
    reading [errorData.detail] throws, and through the [throw], whose message
    is the string form of [errorData.detail || fallback].
    [[
      const response = await fetch(...);
      if (!response.ok) {
        const errorData = await response.json();
        throw new Error(errorData.detail || fallback);
      }
      const data = await response.json();
    ]] *)
Definition awaitJson {A} (toStr : float -> string) (fallback : string)
    (res : FetchResult A) : string + A :=
  match res with
  | FetchRejected message => inl message
  | NotOk (BodyRejected message) => inl message
  | NotOk (BodyParsed (NullBody message)) => inl message
  | NotOk (BodyParsed NoDetail) => inl fallback
  | NotOk (BodyParsed (Detail value)) =>
      inl (if truthy value then toString toStr value else fallback)
  | Ok (BodyRejected message) => inl message
  | Ok (BodyParsed data) => inr data
  end.

Definition json_headers : list (string * string) :=
  [("Content-Type", "application/json")].

(** A sample inside a request body. *)
Definition json_of_sample (s : Sample) : json :=
  JObj [("lat", json_of_number (lat s)); ("lng", json_of_number (lng s));
        ("accuracy", json_of_number (accuracy s)); ("timestamp", JInt (timestamp s))].

(** ** The enhanced component *)

Section Enhanced.

(** [Number::toString], used by the template literal of the map link; the
    digits it produces are not modelled. *)
Variable Number_toString : float -> string.

Open Scope act_scope.

(** *** Progress bar *)

(** The callback of the interval:
    [[
      setLocatingProgress(prev => {
        if (prev >= 100) { clearInterval(locatingTimer.current); return 100; }
        return prev + 10;
      });
    ]] *)
Definition onInterval : Act := fun w =>
  let prev := locatingProgress (st w) in
  if 100 <=? prev
  then (readLocatingTimer clearInterval >> setLocatingProgress 100) w
  else setLocatingProgress (prev + 10) w.

Definition startLocatingProgress : Act :=
  setLocatingProgress 0 >>
  setInterval 200 (fun id => assignLocatingTimer (Some id)).

Definition stopLocatingProgress : Act :=
  readLocatingTimer clearInterval >>
  setLocatingProgress 100.

(** *** Building lookup *)

Definition searchBuilding (r : State) : Act :=
  if negb (truthy_string (trimStart (buildingName r))) then
    setError (Some "Please enter a building name")
  else
    setLoading true >>
    setError None >>
    fetch {| url := API_URL +:+ "/building";
             method := "POST";
             headers := json_headers;
             body := stringify
               [("name", Some (JStr (buildingName r)));
                ("city", JStr <$> or_undefined (city r));
                ("country", JStr <$> or_undefined (country r))] |}
          AwaitBuilding.

(** The rest of [searchBuilding], from the result of the request on. *)
Definition searchBuilding_resumed (res : FetchResult Building) : Act :=
  (match awaitJson Number_toString "Failed to find building" res with
   | inr data =>
       setBuilding (Some data) >>
       setCheckResult None >>
       setMapUrl (Some ("https://www.openstreetmap.org/#map=18/"
                        +:+ Number_toString (bld_lat data) +:+ "/"
                        +:+ Number_toString (bld_lng data)))
   | inl message =>
       setError (Some message) >>
       setBuilding None >>
       setMapUrl None
   end) >>
  setLoading false.

(** *** One-shot acquisition *)

Definition newLocation (c : Coords) (now : Z) : Sample :=
  {| lat := latitude c; lng := longitude c; accuracy := coords_accuracy c;
     timestamp := now |}.

(** The updater given to [setLocationHistory] by both success callbacks. *)
Definition addToHistory (x : Sample) (prev : list Sample) : list Sample :=
  let updated := prev ++ [x] in
  slice (- MAX_HISTORY_POINTS) updated.

Definition acquisitionOptions : PositionOptions :=
  {| enableHighAccuracy := true; timeout := 15000; maximumAge := 0 |}.

(** [getUserLocation] and its callbacks read no state variable, so they take
    no render. *)
Definition getUserLocation : Act :=
  setError None >>
  ifGeolocation
    (setLoading true >>
     startLocatingProgress >>
     getCurrentPosition acquisitionOptions)
    (setError (Some "Geolocation is not supported by your browser")).

(** The success callback of [getCurrentPosition]; [now] is [Date.now()]. *)
Definition onPosition (c : Coords) (now : Z) : Act :=
  setUserLocation (Some (newLocation c now)) >>
  setLocationHistory (addToHistory (newLocation c now)) >>
  setLoading false >>
  stopLocatingProgress.

(** The error callback of [getCurrentPosition]. *)
Definition onPositionError (message : string) : Act :=
  setError (Some ("Error getting location: " +:+ message)) >>
  setLoading false >>
  stopLocatingProgress.

(** *** Continuous monitoring *)

(** [stopLocationMonitoring] of render [r]: [watchId] is the value of that
    render. *)
Definition stopLocationMonitoring (r : State) : Act :=
  (match watchId r with
   | Some id => clearWatch id >> setWatchId None
   | None => skip
   end) >>
  setIsMonitoring false.

(** The success callback of [watchPosition]. *)
Definition onWatchPosition (c : Coords) (now : Z) : Act :=
  setUserLocation (Some (newLocation c now)) >>
  setLocationHistory (addToHistory (newLocation c now)).

(** The error callback of [watchPosition], created by the
    [startLocationMonitoring] of render [r]: the [stopLocationMonitoring] it
    calls is the one defined in that render. *)
Definition onWatchError (r : State) (message : string) : Act :=
  setError (Some ("Error monitoring location: " +:+ message)) >>
  stopLocationMonitoring r.

(** [startLocationMonitoring] of render [r]; the callbacks it hands to
    [watchPosition] are closures of [r]. *)
Definition startLocationMonitoring (r : State) : Act :=
  match watchId r with
  | Some _ => skip
  | None =>
      setError None >>
      setIsMonitoring true >>
      ifGeolocation
        (watchPosition r acquisitionOptions (fun id => setWatchId (Some id)))
        (setError (Some "Geolocation is not supported by your browser") >>
         setIsMonitoring false)
  end.

(** *** Verification *)

Definition checkLocation (r : State) : Act :=
  match building r, userLocation r with
  | Some _, Some location =>
      setLoading true >>
      setError None >>
      fetch {| url := API_URL +:+ "/check-location";
               method := "POST";
               headers := json_headers;
               body := stringify
                 [("building_name", Some (JStr (buildingName r)));
                  ("city", JStr <$> or_undefined (city r));
                  ("country", JStr <$> or_undefined (country r));
                  ("user_location", Some (json_of_sample location));
                  ("location_history",
                   if 3 <=? Z.of_nat (length (locationHistory r))
                   then Some (JArr (json_of_sample <$> slice (-3) (locationHistory r)))
                   else None)] |}
            AwaitCheck
  | _, _ =>
      setError (Some "Building and user location are required")
  end.

(** The rest of [checkLocation], from the result of the request on. *)
Definition checkLocation_resumed (res : FetchResult CheckResult) : Act :=
  (match awaitJson Number_toString "Failed to check location" res with
   | inr data => setCheckResult (Some data)
   | inl message => setError (Some message)
   end) >>
  setLoading false.

(** *** Mounting *)

(** The effect run once after the first render. *)
Definition onMount : Act := getUserLocation.

(** *** Confidence colour *)

Definition getConfidenceColor (confidence : option string) : string :=
  match confidence with
  | None => "#f44336"
  | Some c =>
      if negb (truthy_string c) then "#f44336"
      else if includes c "Definitely inside" then "#4caf50"
      else if includes c "Likely inside" then "#8bc34a"
      else if includes c "uncertain" then "#ffeb3b"
      else if includes c "Likely outside" then "#ff9800"
      else "#f44336"
  end.

(** *** Events *)

(** What can happen to the mounted component: the user acts on an enabled
    control, or the browser runs a registered callback or resumes a
    suspended handler. *)
Inductive Event : Type :=
  | ChangeBuildingName (v : string)
  | ChangeCity (v : string)
  | ChangeCountry (v : string)
  | ClickSearch
  | ClickGetLocation
  | ClickStartMonitoring
  | ClickStopMonitoring
  | ClickCheck
  | Interval (id : Z)
  | Position (c : Coords) (now : Z)
  | PositionError (message : string)
  | WatchPosition (id : Z) (c : Coords) (now : Z)
  | WatchError (id : Z) (message : string)
  | BuildingResponse (res : FetchResult Building)
  | CheckResponse (res : FetchResult CheckResult).

(** One event.  The handlers of the controls belong to the latest render,
    [st w]; a control that is disabled or not rendered, a callback that is
    not registered and a response nobody waits for do nothing. *)
Definition step (e : Event) : Act := fun w =>
  let r := st w in
  match e with
  | ChangeBuildingName v => if loading r then w else setBuildingName v w
  | ChangeCity v => if loading r then w else setCity v w
  | ChangeCountry v => if loading r then w else setCountry v w
  | ClickSearch => if loading r then w else searchBuilding r w
  | ClickGetLocation => if loading r then w else getUserLocation w
  | ClickStartMonitoring =>
      if isMonitoring r then w else startLocationMonitoring r w
  | ClickStopMonitoring =>
      if isMonitoring r then stopLocationMonitoring r w else w
  | ClickCheck =>
      match building r, userLocation r with
      | Some _, Some _ => if loading r then w else checkLocation r w
      | _, _ => w
      end
  | Interval id =>
      match intervals w !! id with
      | Some _ => onInterval w
      | None => w
      end
  | Position c now =>
      match acquisitions w with
      | _ :: _ => (acquisitionSettled >> onPosition c now) w
      | [] => w
      end
  | PositionError message =>
      match acquisitions w with
      | _ :: _ => (acquisitionSettled >> onPositionError message) w
      | [] => w
      end
  | WatchPosition id c now =>
      match watches w !! id with
      | Some _ => onWatchPosition c now w
      | None => w
      end
  | WatchError id message =>
      match watches w !! id with
      | Some watch => onWatchError (watch_render watch) message w
      | None => w
      end
  | BuildingResponse res =>
      match awaitingBuilding w with
      | S _ => (resumed AwaitBuilding >> searchBuilding_resumed res) w
      | O => w
      end
  | CheckResponse res =>
      match awaitingCheck w with
      | S _ => (resumed AwaitCheck >> checkLocation_resumed res) w
      | O => w
      end
  end.

Definition run (events : list Event) : Act := fun w =>
  fold_left (fun w e => step e w) events w.

(** The component after mounting: the first render and its effect. *)
Definition mounted (geo : bool) : World := onMount (initialWorld geo).

(** The worlds the component can be in. *)
Definition reachable (w : World) : Prop :=
  exists geo events, w = run events (mounted geo).

End Enhanced.

(** ** The simple component

    The first [App] of the file: no history, no monitoring, no progress bar,
    and a flat verification request. *)

Module Simple.

(** Its [userLocation] object. *)
Record Location := {
  lat : float;
  lng : float;
  accuracy : float
}.

Record State := {
  buildingName : string;
  city : string;
  country : string;
  building : option Building;
  userLocation : option Location;
  checkResult : option CheckResult;
  loading : bool;
  error : option string;
  mapUrl : option string
}.

Record World := {
  st : State;
  acquisitions : list PositionOptions;
  requests : list Request;
  awaitingBuilding : nat;
  awaitingCheck : nat;
  geolocation : bool
}.

Definition Act : Type := World -> World.
Definition seq_act (a b : Act) : Act := fun w => b (a w).

Declare Scope simple_scope.
Delimit Scope simple_scope with simple.
Bind Scope simple_scope with Act.
Notation "a >> b" := (seq_act a b)
  (at level 90, right associativity) : simple_scope.

Definition modify (f : State -> State) : Act := fun w =>
  {| st := f (st w); acquisitions := acquisitions w; requests := requests w;
     awaitingBuilding := awaitingBuilding w; awaitingCheck := awaitingCheck w;
     geolocation := geolocation w |}.

Definition setBuilding (v : option Building) : Act := modify (fun s =>
  {| buildingName := buildingName s; city := city s; country := country s;
     building := v; userLocation := userLocation s;
     checkResult := checkResult s; loading := loading s; error := error s;
     mapUrl := mapUrl s |}).

Definition setUserLocation (v : option Location) : Act := modify (fun s =>
  {| buildingName := buildingName s; city := city s; country := country s;
     building := building s; userLocation := v;
     checkResult := checkResult s; loading := loading s; error := error s;
     mapUrl := mapUrl s |}).

Definition setCheckResult (v : option CheckResult) : Act := modify (fun s =>
  {| buildingName := buildingName s; city := city s; country := country s;
     building := building s; userLocation := userLocation s;
     checkResult := v; loading := loading s; error := error s;
     mapUrl := mapUrl s |}).

Definition setLoading (v : bool) : Act := modify (fun s =>
  {| buildingName := buildingName s; city := city s; country := country s;
     building := building s; userLocation := userLocation s;
     checkResult := checkResult s; loading := v; error := error s;
     mapUrl := mapUrl s |}).

Definition setError (v : option string) : Act := modify (fun s =>
  {| buildingName := buildingName s; city := city s; country := country s;
     building := building s; userLocation := userLocation s;
     checkResult := checkResult s; loading := loading s; error := v;
     mapUrl := mapUrl s |}).

Definition setMapUrl (v : option string) : Act := modify (fun s =>
  {| buildingName := buildingName s; city := city s; country := country s;
     building := building s; userLocation := userLocation s;
     checkResult := checkResult s; loading := loading s; error := error s;
     mapUrl := v |}).

Definition getCurrentPosition (o : PositionOptions) : Act := fun w =>
  {| st := st w; acquisitions := acquisitions w ++ [o];
     requests := requests w;
     awaitingBuilding := awaitingBuilding w; awaitingCheck := awaitingCheck w;
     geolocation := geolocation w |}.

Definition fetch (q : Request) (who : Awaiting) : Act := fun w =>
  {| st := st w; acquisitions := acquisitions w;
     requests := requests w ++ [q];
     awaitingBuilding :=
       (match who with AwaitBuilding => S (awaitingBuilding w)
                     | AwaitCheck => awaitingBuilding w end);
     awaitingCheck :=
       (match who with AwaitCheck => S (awaitingCheck w)
                     | AwaitBuilding => awaitingCheck w end);
     geolocation := geolocation w |}.

Definition ifGeolocation (present absent : Act) : Act := fun w =>
  if geolocation w then present w else absent w.

Section Handlers.

Variable Number_toString : float -> string.

Open Scope simple_scope.

Definition searchBuilding (r : State) : Act :=
  if negb (truthy_string (trimStart (buildingName r))) then
    setError (Some "Please enter a building name")
  else
    setLoading true >>
    setError None >>
    fetch {| url := API_URL +:+ "/building";
             method := "POST";
             headers := json_headers;
             body := stringify
               [("name", Some (JStr (buildingName r)));
                ("city", JStr <$> or_undefined (city r));
                ("country", JStr <$> or_undefined (country r))] |}
          AwaitBuilding.

Definition searchBuilding_resumed (res : FetchResult Building) : Act :=
  (match awaitJson Number_toString "Failed to find building" res with
   | inr data =>
       setBuilding (Some data) >>
       setCheckResult None >>
       setMapUrl (Some ("https://www.openstreetmap.org/#map=18/"
                        +:+ Number_toString (bld_lat data) +:+ "/"
                        +:+ Number_toString (bld_lng data)))
   | inl message =>
       setError (Some message) >>
       setBuilding None >>
       setMapUrl None
   end) >>
  setLoading false.

Definition acquisitionOptions : PositionOptions :=
  {| enableHighAccuracy := true; timeout := 10000; maximumAge := 0 |}.

Definition getUserLocation : Act :=
  setError None >>
  ifGeolocation
    (setLoading true >>
     getCurrentPosition acquisitionOptions)
    (setError (Some "Geolocation is not supported by your browser")).

Definition onPosition (c : Coords) : Act :=
  setUserLocation (Some {| lat := latitude c; lng := longitude c;
                           accuracy := coords_accuracy c |}) >>
  setLoading false.

Definition onPositionError (message : string) : Act :=
  setError (Some ("Error getting location: " +:+ message)) >>
  setLoading false.

Definition checkLocation (r : State) : Act :=
  match building r, userLocation r with
  | Some _, Some location =>
      setLoading true >>
      setError None >>
      fetch {| url := API_URL +:+ "/check-location";
               method := "POST";
               headers := json_headers;
               body := stringify
                 [("building_name", Some (JStr (buildingName r)));
                  ("city", JStr <$> or_undefined (city r));
                  ("country", JStr <$> or_undefined (country r));
                  ("user_lat", Some (json_of_number (lat location)));
                  ("user_lng", Some (json_of_number (lng location)))] |}
            AwaitCheck
  | _, _ =>
      setError (Some "Building and user location are required")
  end.

Definition checkLocation_resumed (res : FetchResult CheckResult) : Act :=
  (match awaitJson Number_toString "Failed to check location" res with
   | inr data => setCheckResult (Some data)
   | inl message => setError (Some message)
   end) >>
  setLoading false.

End Handlers.

End Simple.

(** ** Notions used to state the properties *)

(** The last [n] elements of a list, in their order. *)
Definition lastn {A} (n : nat) (l : list A) : list A :=
  drop (length l - n) l.

(** The sample an event appends to the history when it happens in world
    [w]: the success callback of a pending one-shot acquisition or of a
    registered watch. *)
Definition appended (e : Event) (w : World) : list Sample :=
  match e with
  | Position c now =>
      match acquisitions w with
      | _ :: _ => [newLocation c now]
      | [] => []
      end
  | WatchPosition id c now =>
      match watches w !! id with
      | Some _ => [newLocation c now]
      | None => []
      end
  | _ => []
  end.

(** The samples appended along a run, in arrival order. *)
Fixpoint arrivals (toStr : float -> string) (events : list Event) (w : World)
  : list Sample :=
  match events with
  | [] => []
  | e :: events' => appended e w ++ arrivals toStr events' (step toStr e w)
  end.

(** The interval with id [id] fires [k] times in a row. *)
Definition ticks (toStr : float -> string) (id : Z) (k : nat) : Act :=
  run toStr (replicate k (Interval id)).

(** The world [k] ticks after [startLocatingProgress], as long as no other
    handler runs: the timer of the ref is [id], the progress is [10 k]
    capped at 100, and the timer runs until the tick that finds 100. *)
Definition ticking (id : Z) (k : nat) (w : World) : Prop :=
  locatingTimer w = Some id
  /\ locatingProgress (st w) = Z.min (10 * Z.of_nat k) 100
  /\ intervals w !! id = (if decide (k <= 10)%nat then Some 200 else None)
  /\ acquisitions w <> [].

(** Every registered watch was registered by a render whose [watchId] was
    [null]. *)
Definition stale_watches (w : World) : Prop :=
  forall id watch, watches w !! id = Some watch ->
                   watchId (watch_render watch) = None.

(** The events that store a verification result. *)
Definition isCheckResponse (e : Event) : bool :=
  match e with
  | CheckResponse _ => true
  | _ => false
  end.

(** [p] occurs in [s]. *)
Definition Contains (s p : string) : Prop :=
  exists before after, s = before +:+ p +:+ after.

(** The severity tiers of the specification and the colour that shows each. *)
Inductive Tier : Type := TierA | TierB | TierC | TierD | TierE.

Definition tierColor (t : Tier) : string :=
  match t with
  | TierA => "#4caf50"
  | TierB => "#8bc34a"
  | TierC => "#ffeb3b"
  | TierD => "#ff9800"
  | TierE => "#f44336"
  end.

(** [severityTier] as the specification words it: the first rule whose text
    the label contains decides, and anything else, an empty or absent label
    included, is Tier E. *)
Definition severityTier (confidenceLevel : option string) : Tier :=
  match confidenceLevel with
  | Some c =>
      if includes c "Definitely inside" then TierA
      else if includes c "Likely inside" then TierB
      else if includes c "uncertain" then TierC
      else if includes c "Likely outside" then TierD
      else TierE
  | None => TierE
  end.

(** What the simple component sees of the enhanced one: the state variables
    both have, the location without its time stamp. *)
Definition simple_location (s : Sample) : Simple.Location :=
  {| Simple.lat := lat s; Simple.lng := lng s; Simple.accuracy := accuracy s |}.

Definition simple_state (s : State) : Simple.State :=
  {| Simple.buildingName := buildingName s;
     Simple.city := city s;
     Simple.country := country s;
     Simple.building := building s;
     Simple.userLocation := simple_location <$> userLocation s;
     Simple.checkResult := checkResult s;
     Simple.loading := loading s;
     Simple.error := error s;
     Simple.mapUrl := mapUrl s |}.

Definition simple_world (w : World) : Simple.World :=
  {| Simple.st := simple_state (st w);
     Simple.acquisitions := acquisitions w;
     Simple.requests := requests w;
     Simple.awaitingBuilding := awaitingBuilding w;
     Simple.awaitingCheck := awaitingCheck w;
     Simple.geolocation := geolocation w |}.

(** *** Concrete data for the examples *)

Definition exampleBuilding : Building :=
  {| bld_name := "Empire State Building";
     bld_formatted_address := "20 W 34th St, New York";
     bld_lat := 40.75%float; bld_lng := (-73.5)%float;
     bld_type := Some "office" |}.

Definition exampleCoords : Coords :=
  {| latitude := 40.75%float; longitude := (-73.5)%float;
     coords_accuracy := 12.5%float |}.

(** The sample taken at time [n]. *)
Definition exampleSample (n : Z) : Sample := newLocation exampleCoords n.

(** A render with a resolved building, a current sample and four samples in
    the history. *)
Definition exampleRender : State :=
  {| buildingName := "Empire State Building";
     city := "New York";
     country := "";
     building := Some exampleBuilding;
     userLocation := Some (exampleSample 4);
     locationHistory := exampleSample <$> [1; 2; 3; 4];
     checkResult := None;
     loading := false;
     error := None;
     mapUrl := Some "https://www.openstreetmap.org/#map=18/40.75/-73.5";
     watchId := None;
     isMonitoring := false;
     locatingProgress := 100 |}.

Definition exampleWorld : World :=
  modify (fun _ => exampleRender) (initialWorld true).

(** A stand-in for [Number::toString]. *)
Definition exampleToString (x : float) : string := "0".

(** The first acquisition after mounting and eleven more, each started with
    "Get My Location". *)
Definition twelveAcquisitions : list Event :=
  Position exampleCoords 1
  :: mjoin ((fun n => [ClickGetLocation; Position exampleCoords n])
            <$> [2; 3; 4; 5; 6; 7; 8; 9; 10; 11; 12]).

(** Monitoring starts, delivers one sample and then fails. *)
Definition monitoringFails : list Event :=
  [ClickStartMonitoring; WatchPosition 1 exampleCoords 7].

Definition exampleCheckResult : CheckResult :=
  {| is_within_range := true;
     distance := 42.5%float;
     confidence_level := Some "Likely inside boundary";
     location_quality :=
       {| lq_confidence := "High"; lq_accuracy := Some 12.5%float;
          lq_stability := None |} |}.

(** A session: the first position arrives, a building is found, the
    location is verified, and the building is looked up again. *)
Definition verifiedSession : list Event :=
  [Position exampleCoords 1;
   ChangeBuildingName "Empire State Building";
   ClickSearch;
   BuildingResponse (Ok (BodyParsed exampleBuilding));
   ClickCheck;
   CheckResponse (Ok (BodyParsed exampleCheckResult));
   ClickSearch].

(** ** Unmounting

    The cleanup returned by the effect of the first render:
    [[
      return () => {
        if (watchId !== null) { navigator.geolocation.clearWatch(watchId); }
        if (locatingTimer.current) { clearInterval(locatingTimer.current); }
      };
    ]]
    The effect has no dependencies, so the cleanup is a closure of the first
    render and its [watchId] is the one of [initialState].  The ref is read
    when the cleanup runs; a timer id is a number, truthy unless it is 0. *)
Definition onUnmount : Act :=
  seq_act
    (match watchId initialState with
     | Some id => clearWatch id
     | None => skip
     end)
    (readLocatingTimer (fun current =>
       match current with
       | Some id => if id =? 0 then skip else clearInterval (Some id)
       | None => skip
       end)).

(** ** Notions used to state the further properties *)

(** The operations that are waiting for the browser or the service: the
    suspended lookups and verifications and the pending acquisitions. *)
Definition pending (w : World) : nat :=
  (awaitingBuilding w + awaitingCheck w + length (acquisitions w))%nat.

(** The loading flag is set exactly while one operation is waiting, and
    there is never more than one. *)
Definition serialised (w : World) : Prop :=
  pending w = if loading (st w) then 1%nat else 0%nat.

(** The only interval that can run is the one [locatingTimer.current]
    names, with a delay of 200 ms and an id the browser has handed out; none
    runs unless an acquisition is pending. *)
Definition timers_owned (w : World) : Prop :=
  (acquisitions w = [] -> intervals w = ∅)
  /\ (forall id delay, intervals w !! id = Some delay ->
        locatingTimer w = Some id /\ delay = 200)
  /\ (forall id, locatingTimer w = Some id -> 1 <= id < nextTimer w)
  /\ 1 <= nextTimer w.

(** The running intervals after [clearInterval(t)]. *)
Definition delete_timer (t : option Z) (m : gmap Z Z) : gmap Z Z :=
  match t with
  | Some id => delete id m
  | None => m
  end.

(** The progress is one of 0, 10, ..., 100. *)
Definition progress_in_steps (w : World) : Prop :=
  exists k, (k <= 10)%nat /\ locatingProgress (st w) = 10 * Z.of_nat k.

(** [watchId] names the one registered watch, or is [null] and no watch is
    registered; while [isMonitoring] is set there is a watch. *)
Definition subscribed (w : World) : Prop :=
  match watchId (st w) with
  | Some id => exists watch, watches w = {[id := watch]}
  | None => watches w = ∅
  end
  /\ (isMonitoring (st w) = true -> watchId (st w) <> None).

(** The map link [searchBuilding] derives from a building. *)
Definition mapLink (toStr : float -> string) (b : Building) : string :=
  "https://www.openstreetmap.org/#map=18/" +:+ toStr (bld_lat b) +:+ "/"
  +:+ toStr (bld_lng b).

(** The map link is the one of the resolved building, both or neither. *)
Definition linked (toStr : float -> string) (w : World) : Prop :=
  mapUrl (st w) = mapLink toStr <$> building (st w).

(** A request of the component: a JSON [POST] to one of its two addresses. *)
Definition wellFormedRequest (q : Request) : Prop :=
  method q = "POST"
  /\ headers q = [("Content-Type", "application/json")]
  /\ (url q = "http://localhost:8000/api/building"
      \/ url q = "http://localhost:8000/api/check-location").

(** What a component in a browser without geolocation can reach. *)
Definition unlocated (w : World) : Prop :=
  geolocation w = false
  /\ userLocation (st w) = None
  /\ locationHistory (st w) = []
  /\ isMonitoring (st w) = false
  /\ watchId (st w) = None
  /\ watches w = ∅
  /\ intervals w = ∅
  /\ acquisitions w = []
  /\ awaitingCheck w = 0%nat
  /\ Forall (fun q => url q = "http://localhost:8000/api/building") (requests w).

(** The white space characters of one byte: tab, line feed, vertical tab,
    form feed, carriage return and space. *)
Definition asciiSpace (a : Ascii.ascii) : bool :=
  let n := Ascii.nat_of_ascii a in
  (n =? 9)%nat || (n =? 10)%nat || (n =? 11)%nat || (n =? 12)%nat
  || (n =? 13)%nat || (n =? 32)%nat.

(** A string of such characters only, the empty string included. *)
Fixpoint blank (s : string) : bool :=
  match s with
  | EmptyString => true
  | String a s' => asciiSpace a && blank s'
  end.

(** An ASCII character that is not white space. *)
Definition visibleAscii (a : Ascii.ascii) : bool :=
  (Ascii.nat_of_ascii a <? 128)%nat && negb (asciiSpace a).

(** A monitoring session before any error: monitoring starts and delivers
    one sample. *)
Definition monitoringWorld : World :=
  run exampleToString monitoringFails (mounted true).

(** The first position has arrived and a building has been found. *)
Definition readyToCheck : World :=
  run exampleToString
    [Position exampleCoords 1;
     ChangeBuildingName "Empire State Building";
     ClickSearch;
     BuildingResponse (Ok (BodyParsed exampleBuilding))]
    (mounted true).

(** * Properties *)

(** ** History buffer *)

Section History.

Context {A : Type}.
Implicit Types (l k : list A) (n : nat).

Lemma slice_negative n l :
  (0 < n)%nat -> slice (- Z.of_nat n) l = lastn n l.
Proof.
  intros Hn. unfold slice, lastn.
  destruct (Z.ltb_spec (- Z.of_nat n) 0) as [_|]; [|lia].
  f_equal. lia.
Qed.

Lemma length_lastn n l : length (lastn n l) = Nat.min (length l) n.
Proof. unfold lastn. rewrite length_drop. lia. Qed.

Lemma lastn_short n l : (length l <= n)%nat -> lastn n l = l.
Proof.
  intros Hl. unfold lastn.
  replace (length l - n)%nat with 0%nat by lia. apply drop_0.
Qed.

(** Trimming before appending does not change what is kept. *)
Lemma lastn_app_lastn n l k : lastn n (lastn n l ++ k) = lastn n (l ++ k).
Proof.
  destruct (decide (length l <= n)%nat) as [Hl|Hl].
  - now rewrite (lastn_short n l).
  - unfold lastn at 1 3. rewrite !length_app, length_lastn.
    unfold lastn.
    rewrite <- (drop_app_le l k (length l - n)) by lia.
    rewrite drop_drop. f_equal. lia.
Qed.

Lemma lastn_suffix n l : exists older, l = older ++ lastn n l.
Proof. exists (take (length l - n) l). unfold lastn. now rewrite take_drop. Qed.

End History.

Lemma addToHistory_lastn x prev :
  addToHistory x prev = lastn 10 (prev ++ [x]).
Proof. unfold addToHistory. apply (slice_negative 10). lia. Qed.

(** ** Running the handlers *)

(** Unfolds the handlers down to the record of the resulting world. *)
Ltac handlers :=
  repeat progress unfold step, searchBuilding, searchBuilding_resumed,
    getUserLocation, onMount, onPosition, onPositionError,
    stopLocationMonitoring, onWatchPosition, onWatchError,
    startLocationMonitoring, checkLocation, checkLocation_resumed,
    onInterval, startLocatingProgress, stopLocatingProgress, ifGeolocation,
    readLocatingTimer, clearInterval, awaitJson, seq_act, skip in *.

Ltac cases := cbn in *; repeat (case_match; subst; cbn in *).

Section Properties.

Variable Number_toString : float -> string.

#[local] Abbreviation step := (step Number_toString).
#[local] Abbreviation run := (run Number_toString).
#[local] Abbreviation arrivals := (arrivals Number_toString).
#[local] Abbreviation reachable := (reachable Number_toString).

Lemma run_app events1 events2 w :
  run (events1 ++ events2) w = run events2 (run events1 w).
Proof. unfold run. apply fold_left_app. Qed.

(** An event changes the history exactly by the sample it appends. *)
Lemma step_history e w :
  locationHistory (st (step e w)) =
  foldl (fun h x => addToHistory x h) (locationHistory (st w)) (appended e w).
Proof.
  destruct e; handlers; cases; congruence.
Qed.

Lemma foldl_addToHistory (older xs : list Sample) :
  foldl (fun h x => addToHistory x h) (lastn 10 older) xs = lastn 10 (older ++ xs).
Proof.
  revert older. induction xs as [|x xs IH]; intros older; cbn [foldl].
  - now rewrite app_nil_r.
  - rewrite addToHistory_lastn, lastn_app_lastn, IH.
    now rewrite <- app_assoc.
Qed.

Lemma run_history events w :
  locationHistory (st (run events w)) =
  foldl (fun h x => addToHistory x h) (locationHistory (st w)) (arrivals events w).
Proof.
  revert w. induction events as [|e events IH]; intros w; [reflexivity|].
  change (run (e :: events) w) with (run events (step e w)).
  change (arrivals (e :: events) w)
    with (appended e w ++ arrivals events (step e w)).
  rewrite IH, step_history, foldl_app. reflexivity.
Qed.

Lemma mounted_history geo : locationHistory (st (mounted geo)) = [].
Proof. destruct geo; reflexivity. Qed.

Lemma run_history_lastn geo events :
  locationHistory (st (run events (mounted geo))) =
  lastn 10 (arrivals events (mounted geo)).
Proof.
  rewrite run_history, mounted_history.
  change (@nil Sample) with (lastn 10 (@nil Sample)).
  now rewrite foldl_addToHistory.
Qed.

(** C1.  Whatever happens to the mounted component, the history buffer holds
    the last [min N 10] of the [N] samples appended so far by the one-shot
    and the monitoring callbacks, oldest first: its length is [min N 10] and
    the appended samples are some older ones followed by the buffer. *)
Theorem history_keeps_last_ten geo events :
  let buffer := locationHistory (st (run events (mounted geo))) in
  let samples := arrivals events (mounted geo) in
  let N := length samples in
  length buffer = Nat.min N 10
  /\ buffer = lastn (Nat.min N 10) samples
  /\ exists older, samples = older ++ buffer.
Proof.
  cbn zeta. set (samples := arrivals events (mounted geo)).
  rewrite (run_history_lastn geo events). fold samples.
  split; [apply length_lastn|]. split; [|apply lastn_suffix].
  unfold lastn. f_equal. lia.
Qed.

(** ** Verification request *)

Lemma lastn_lastn {A} (n m : nat) (l : list A) :
  (n <= m)%nat -> lastn n (lastn m l) = lastn n l.
Proof.
  intros Hnm. unfold lastn at 1. rewrite length_lastn.
  unfold lastn. rewrite drop_drop. f_equal. lia.
Qed.

(** The body of the request [checkLocation] sends in render [r]. *)
Lemma checkLocation_requests r w b location :
  building r = Some b -> userLocation r = Some location ->
  requests (checkLocation r w) =
  requests w ++
  [{| url := "http://localhost:8000/api/check-location";
      method := "POST";
      headers := json_headers;
      body := stringify
        [("building_name", Some (JStr (buildingName r)));
         ("city", JStr <$> or_undefined (city r));
         ("country", JStr <$> or_undefined (country r));
         ("user_location", Some (json_of_sample location));
         ("location_history",
          if 3 <=? Z.of_nat (length (locationHistory r))
          then Some (JArr (json_of_sample <$> slice (-3) (locationHistory r)))
          else None)] |}].
Proof. intros Hb Hl. unfold checkLocation. rewrite Hb, Hl. reflexivity. Qed.

(** What [JSON.stringify] writes for a number. *)
Lemma json_of_number_cases x :
  (is_nan x = false -> is_infinity x = false -> is_zero x = false ->
   json_of_number x = JNum x)
  /\ (is_nan x = false -> is_infinity x = false -> is_zero x = true ->
      json_of_number x = JNum 0)
  /\ (is_nan x = true \/ is_infinity x = true -> json_of_number x = JNull).
Proof.
  unfold json_of_number. repeat split.
  - intros -> -> ->. reflexivity.
  - intros -> -> ->. reflexivity.
  - intros [-> | ->]; [reflexivity|]. now rewrite orb_true_r.
Qed.

(** C2.  When [checkLocation] sends its request (a building and a current
    sample are there), the body carries the current sample under
    [user_location], as the object of its [lat], [lng], [accuracy] and
    [timestamp]; it has no [location_history] member at all when the buffer
    holds fewer than 3 samples, and otherwise that member is the array of the
    objects of the last 3 samples of the buffer, oldest first.  In such an
    object a coordinate is written as the number it is, both zeros as 0, and
    as [null] when it is not finite; the time stamp is written as it is. *)
Theorem checkLocation_history_hint r w b location :
  building r = Some b -> userLocation r = Some location ->
  let written (s : Sample) : json :=
    JObj [("lat", json_of_number (lat s)); ("lng", json_of_number (lng s));
          ("accuracy", json_of_number (accuracy s));
          ("timestamp", JInt (timestamp s))] in
  (exists q,
    requests (checkLocation r w) = requests w ++ [q]
    /\ member "user_location" (body q) = Some (written location)
    /\ ((length (locationHistory r) < 3)%nat ->
        member "location_history" (body q) = None)
    /\ ((3 <= length (locationHistory r))%nat ->
        member "location_history" (body q) =
          Some (JArr (written <$> lastn 3 (locationHistory r)))
        /\ length (lastn 3 (locationHistory r)) = 3%nat))
  /\ (forall x,
        (is_nan x = false -> is_infinity x = false -> is_zero x = false ->
         json_of_number x = JNum x)
        /\ (is_nan x = false -> is_infinity x = false -> is_zero x = true ->
            json_of_number x = JNum 0)
        /\ (is_nan x = true \/ is_infinity x = true -> json_of_number x = JNull)).
Proof.
  intros Hb Hl written. split; [|exact json_of_number_cases].
  eexists. split; [apply (checkLocation_requests r w b location Hb Hl)|].
  cbn [body stringify]. unfold member.
  destruct (or_undefined (city r)), (or_undefined (country r)); cbn;
    (split; [reflexivity|]); (split; [intros Hlt|intros Hge]).
  all: destruct (Z.leb_spec 3 (Z.of_nat (length (locationHistory r)))); try lia.
  all: cbn; try reflexivity.
  all: rewrite (slice_negative 3) by lia; rewrite length_lastn.
  all: split; [reflexivity|lia].
Qed.

(** The last 3 samples of the buffer are the last 3 samples that arrived. *)
Lemma history_hint_is_last_arrivals geo events :
  lastn 3 (locationHistory (st (run events (mounted geo)))) =
  lastn 3 (arrivals events (mounted geo)).
Proof.
  rewrite run_history_lastn. apply lastn_lastn. lia.
Qed.

(** C4.  Without a resolved building or without a current sample,
    [checkLocation] only stores the message "Building and user location are
    required" in the error slot: no request is sent, nothing waits for a
    response, and every other part of the world is as before. *)
Theorem checkLocation_precondition r w :
  building r = None \/ userLocation r = None ->
  checkLocation r w = setError (Some "Building and user location are required") w
  /\ error (st (checkLocation r w)) = Some "Building and user location are required"
  /\ requests (checkLocation r w) = requests w
  /\ awaitingCheck (checkLocation r w) = awaitingCheck w.
Proof.
  intros H.
  assert (Heq : checkLocation r w =
                setError (Some "Building and user location are required") w).
  { unfold checkLocation. destruct H as [H|H]; rewrite H; [reflexivity|].
    destruct (building r); reflexivity. }
  rewrite Heq. repeat split.
Qed.

(** ** Failed and successful requests *)






(** Only the responses change the verification result: a verification
    response stores one, a lookup response that succeeds clears it. *)
Lemma step_checkResult e w :
  isCheckResponse e = false ->
  checkResult (st (step e w)) = checkResult (st w)
  \/ checkResult (st (step e w)) = None.
Proof.
  destruct e; try discriminate; intros _; handlers; cases; auto.
Qed.

Lemma run_checkResult_cleared events w :
  Forall (fun e => isCheckResponse e = false) events ->
  checkResult (st w) = None ->
  checkResult (st (run events w)) = None.
Proof.
  intros Hevents. revert w.
  induction Hevents as [|e events He _ IH]; intros w Hw; [exact Hw|].
  change (run (e :: events) w) with (run events (step e w)). apply IH.
  destruct (step_checkResult e w He) as [H|H]; congruence.
Qed.

(** C10.  When a building lookup succeeds, [searchBuilding] stores the new
    building and clears the verification result in the same run, with the
    map link of the new building and the loading flag [false]; the current
    sample and the history buffer are not touched, neither then nor by the
    part of [searchBuilding] before the response.  From the moment the new
    building is stored, the result stays cleared until a verification
    response arrives. *)
Theorem searchBuilding_success_clears_result r w data :
  let w' := searchBuilding_resumed Number_toString (Ok (BodyParsed data)) w in
  w' = setLoading false
         (setMapUrl (Some ("https://www.openstreetmap.org/#map=18/"
                           +:+ Number_toString (bld_lat data) +:+ "/"
                           +:+ Number_toString (bld_lng data)))
            (setCheckResult None (setBuilding (Some data) w)))
  /\ building (st w') = Some data
  /\ checkResult (st w') = None
  /\ userLocation (st w') = userLocation (st w)
  /\ locationHistory (st w') = locationHistory (st w)
  /\ userLocation (st (searchBuilding r w)) = userLocation (st w)
  /\ locationHistory (st (searchBuilding r w)) = locationHistory (st w)
  /\ (forall events,
        awaitingBuilding w <> 0%nat ->
        Forall (fun e => isCheckResponse e = false) events ->
        building (st (step (BuildingResponse (Ok (BodyParsed data))) w)) = Some data
        /\ checkResult
             (st (run events (step (BuildingResponse (Ok (BodyParsed data))) w)))
           = None).
Proof.
  cbn zeta. repeat apply conj;
    try (unfold searchBuilding; cases; reflexivity).
  intros events Hawait Hevents. cbn [step].
  destruct (awaitingBuilding w); [congruence|].
  split; [reflexivity|]. now apply run_checkResult_cleared.
Qed.

(** ** Confidence colour *)

Lemma append_cons a s t : String a s +:+ t = String a (s +:+ t).
Proof. reflexivity. Qed.

Lemma append_empty t : "" +:+ t = t.
Proof. reflexivity. Qed.

Lemma startsWith_spec p s :
  startsWith p s = true <-> exists after, s = p +:+ after.
Proof.
  revert s. induction p as [|a p IH]; intros s; cbn [startsWith].
  - split; [intros _; now exists s|reflexivity].
  - setoid_rewrite append_cons. destruct s as [|b s].
    + split; [discriminate|]. intros [after H]. discriminate.
    + destruct (Ascii.eqb_spec a b) as [->|Hab].
      * rewrite IH. split; intros [after H]; exists after; congruence.
      * split; [discriminate|]. intros [after H]. congruence.
Qed.

(** [includes] is substring containment. *)
Lemma includes_spec s p : includes s p = true <-> Contains s p.
Proof.
  unfold Contains. induction s as [|a s IH]; cbn [includes].
  - rewrite orb_false_r, startsWith_spec. split.
    + intros [after H]. now exists "", after.
    + intros ([|b before] & after & H).
      * now exists after.
      * rewrite append_cons in H. discriminate.
  - rewrite orb_true_iff, startsWith_spec, IH. split.
    + intros [[after H]|(before & after & H)].
      * now exists "", after.
      * exists (String a before), after. rewrite append_cons. congruence.
    + intros ([|b before] & after & H).
      * left. now exists after.
      * right. exists before, after. rewrite append_cons in H. congruence.
Qed.

Lemma tierColor_inj t1 t2 : tierColor t1 = tierColor t2 -> t1 = t2.
Proof. destruct t1, t2; cbn; congruence. Qed.

(** C3.  [getConfidenceColor] is a function on labels (absent ones
    included) that shows the tier [severityTier] names: Tier A when the label
    contains "Definitely inside", else Tier B when it contains "Likely
    inside", else Tier C for "uncertain", else Tier D for "Likely outside",
    else Tier E; the test [includes] is substring containment; the tiers have
    different colours; and the three examples of the specification hold. *)
Theorem getConfidenceColor_tiers :
  (forall confidence,
     getConfidenceColor confidence = tierColor (severityTier confidence))
  /\ (forall s p, includes s p = true <-> Contains s p)
  /\ (forall t1 t2, tierColor t1 = tierColor t2 -> t1 = t2)
  /\ severityTier None = TierE
  /\ severityTier (Some "") = TierE
  /\ severityTier (Some "Definitely inside boundary") = TierA
  /\ severityTier (Some "Likely outside range") = TierD
  /\ getConfidenceColor (Some "") = "#f44336"
  /\ getConfidenceColor None = "#f44336"
  /\ getConfidenceColor (Some "Definitely inside boundary") = "#4caf50"
  /\ getConfidenceColor (Some "Likely outside range") = "#ff9800".
Proof.
  split; [|split; [exact includes_spec|split; [exact tierColor_inj|]]].
  - intros [c|]; [|reflexivity].
    unfold getConfidenceColor, severityTier.
    destruct c as [|a c]; [reflexivity|].
    cbn [truthy_string negb].
    repeat match goal with
      | |- context [includes ?s ?p] => destruct (includes s p)
      end; reflexivity.
  - repeat split.
Qed.

(** ** Progress of a one-shot acquisition *)

#[local] Abbreviation ticks := (ticks Number_toString).

Lemma ticks_S id k w :
  ticks id (S k) w = step (Interval id) (ticks id k w).
Proof.
  change (ticks id (S k) w) with (run (replicate (S k) (Interval id)) w).
  rewrite replicate_S_end, run_app. reflexivity.
Qed.

Lemma ticking_start w :
  geolocation w = true -> ticking (nextTimer w) 0 (getUserLocation w).
Proof.
  intros Hgeo. unfold ticking. handlers. cbn. rewrite Hgeo. cbn.
  rewrite lookup_insert_eq. repeat split. now destruct (acquisitions w).
Qed.

Lemma ticking_step id k w :
  ticking id k w -> ticking id (S k) (step (Interval id) w).
Proof.
  intros (Href & Hp & Hrun & Hacq). unfold ticking. cbn [step].
  rewrite Hrun. destruct (decide (k <= 10)%nat) as [Hk|Hk].
  - unfold onInterval. rewrite Hp.
    destruct (Z.leb_spec 100 (Z.min (10 * Z.of_nat k) 100)) as [Hfull|Hless].
    + assert (k = 10%nat) as -> by lia.
      handlers. rewrite Href. cbn. rewrite lookup_delete_eq. repeat split; auto.
    + cbn. rewrite Hrun. repeat split; auto; [lia|].
      destruct (decide (S k <= 10)%nat); [reflexivity|lia].
  - repeat split; auto; [lia|]. rewrite Hrun.
    destruct (decide (S k <= 10)%nat); [lia|reflexivity].
Qed.

Lemma ticking_ticks id k w : ticking id 0 w -> ticking id k (ticks id k w).
Proof.
  intros H0. induction k as [|k IH]; [exact H0|].
  rewrite ticks_S. now apply ticking_step.
Qed.

(** Once the timer of the ref is cleared and the progress is 100, ticks of
    that timer change nothing. *)
Lemma ticks_stopped id k w :
  intervals w !! id = None -> ticks id k w = w.
Proof.
  intros Hstopped. induction k as [|k IH]; [reflexivity|].
  rewrite ticks_S, IH. cbn [step]. now rewrite Hstopped.
Qed.

Lemma ticking_completed id k w e :
  ticking id k w ->
  (exists c now, e = Position c now) \/ (exists message, e = PositionError message) ->
  locatingProgress (st (step e w)) = 100
  /\ intervals (step e w) !! id = None.
Proof.
  intros (Href & Hp & Hrun & Hacq) [(c & now & ->)|(message & ->)];
    cbn [step]; destruct (acquisitions w) eqn:Ha; try congruence;
    handlers; cbn; rewrite Href; cbn; rewrite lookup_delete_eq; auto.
Qed.

(** C8.  A one-shot acquisition started in a browser with geolocation sets
    the progress to 0 and starts a timer of 200 ms.  While the acquisition is
    pending, after [k] ticks of that timer the progress is [10 k] capped at
    100: each tick adds 10 until 100 is reached, the value never decreases
    and never exceeds 100, and the tick that finds 100 stops the timer.
    Whenever the acquisition completes, with a position or with an error,
    the progress is 100 and the timer is stopped, so later ticks cannot
    change it. *)
Theorem locating_progress w :
  geolocation w = true ->
  let id := nextTimer w in
  let pending k := ticks id k (getUserLocation w) in
  let progress k := locatingProgress (st (pending k)) in
  progress 0%nat = 0
  /\ intervals (pending 0%nat) !! id = Some 200
  /\ (forall k, progress k = Z.min (10 * Z.of_nat k) 100)
  /\ (forall k, progress k <= progress (S k) <= 100)
  /\ (forall k, progress (S k) = progress k + 10
                \/ (progress (S k) = progress k /\ progress k = 100))
  /\ (forall k, intervals (pending k) !! id =
                if decide (k <= 10)%nat then Some 200 else None)
  /\ (forall k c now,
        let completed := step (Position c now) (pending k) in
        locatingProgress (st completed) = 100
        /\ intervals completed !! id = None
        /\ forall j, ticks id j completed = completed)
  /\ (forall k message,
        let completed := step (PositionError message) (pending k) in
        locatingProgress (st completed) = 100
        /\ intervals completed !! id = None
        /\ forall j, ticks id j completed = completed).
Proof.
  intros Hgeo id pending progress.
  assert (Hk : forall k, ticking id k (pending k)).
  { intros k. apply ticking_ticks, ticking_start, Hgeo. }
  assert (Hp : forall k, progress k = Z.min (10 * Z.of_nat k) 100).
  { intros k. apply (Hk k). }
  split; [apply (Hp 0%nat)|]. split; [apply (Hk 0%nat)|].
  split; [exact Hp|]. split; [intros k; rewrite !Hp; lia|].
  split; [intros k; rewrite !Hp; lia|].
  split; [intros k; apply (Hk k)|].
  split.
  - intros k c now completed.
    destruct (ticking_completed id k (pending k) (Position c now) (Hk k))
      as [H100 Hstop]; [left; eauto|].
    split; [exact H100|]. split; [exact Hstop|].
    intros j. now apply ticks_stopped.
  - intros k message completed.
    destruct (ticking_completed id k (pending k) (PositionError message) (Hk k))
      as [H100 Hstop]; [right; eauto|].
    split; [exact H100|]. split; [exact Hstop|].
    intros j. now apply ticks_stopped.
Qed.

(** ** Monitoring *)

(** The callbacks of every registered watch belong to a render in which
    [watchId] was still [null]: [startLocationMonitoring] registers a watch
    only past its guard [watchId !== null]. *)
Lemma step_watch_renders e w :
  stale_watches w -> stale_watches (step e w).
Proof.
  unfold stale_watches. intros Hw id watch.
  assert (Hdel : forall i, delete i (watches w) !! id = Some watch ->
                           watchId (watch_render watch) = None).
  { intros i [_ H]%lookup_delete_Some. eauto. }
  destruct e; handlers; cases; eauto.
  destruct (decide (nextWatch w = id)) as [<-|Hne].
  - rewrite lookup_insert_eq. intros [= <-]. assumption.
  - rewrite lookup_insert_ne by assumption. eauto.
Qed.

Lemma reachable_watch_renders w : reachable w -> stale_watches w.
Proof.
  intros (geo & events & ->). revert geo.
  induction events as [|e events IH] using rev_ind; intros geo.
  - intros id watch. destruct geo; cbn; rewrite lookup_empty; discriminate.
  - rewrite run_app. apply step_watch_renders, IH.
Qed.

(** What [stopLocationMonitoring] does when the user clicks "Stop
    Monitoring": the handler of the latest render releases the watch. *)
Lemma stop_releases_watch w id :
  isMonitoring (st w) = true -> watchId (st w) = Some id ->
  let w' := step ClickStopMonitoring w in
  watches w' !! id = None
  /\ watchId (st w') = None
  /\ isMonitoring (st w') = false.
Proof.
  intros Hmon Hid. cbn [step]. rewrite Hmon.
  unfold stopLocationMonitoring. rewrite Hid. cbn.
  rewrite lookup_delete_eq. auto.
Qed.

(** C7, what the code does.  When the error callback of a registered watch
    runs, it stores the message, sets [isMonitoring] to [false] and keeps the
    current sample and the history; but the [stopLocationMonitoring] it
    calls is the one of the render that registered the watch, where
    [watchId] is [null]: [clearWatch] is not called and [watchId] is not
    reset.  The watch stays registered, and since [watchId] stays set,
    "Start Monitoring" does nothing from then on. *)
Theorem watch_error_keeps_watch w id watch message :
  reachable w -> watches w !! id = Some watch ->
  let w' := step (WatchError id message) w in
  error (st w') = Some ("Error monitoring location: " +:+ message)
  /\ isMonitoring (st w') = false
  /\ userLocation (st w') = userLocation (st w)
  /\ locationHistory (st w') = locationHistory (st w)
  /\ watches w' = watches w
  /\ watchId (st w') = watchId (st w)
  /\ (watchId (st w) <> None -> step ClickStartMonitoring w' = w').
Proof.
  intros Hreach Hwatch.
  pose proof (reachable_watch_renders w Hreach id watch Hwatch) as Hstale.
  cbn [step]. rewrite Hwatch.
  unfold onWatchError, stopLocationMonitoring. rewrite Hstale. cbn.
  repeat split. intros Hid.
  unfold startLocationMonitoring. cbn. destruct (watchId (st w)); [reflexivity|congruence].
Qed.

(** ** The simple component against the enhanced one *)

(** C9, as amended.  Seen through the state variables both components have:
    - building lookup is the same in both, request and state changes;
    - verification makes the same state changes in both, before and after
      the response, and sends to the same address with the same
      [building_name], [city] and [country], but the simple component sends
      the coordinates as [user_lat] and [user_lng] where the enhanced one
      sends [user_location] (and [location_history]);
    - one-shot acquisition makes the same changes to those variables in
      both, the stored location of the simple component being the one of the
      enhanced component without its time stamp, but the simple component
      asks with a timeout of 10000 ms and the enhanced one with 15000 ms. *)
Theorem simple_component_simulated :
  (forall r w,
     simple_world (searchBuilding r w) =
     Simple.searchBuilding (simple_state r) (simple_world w))
  /\ (forall res w,
     simple_world (searchBuilding_resumed Number_toString res w) =
     Simple.searchBuilding_resumed Number_toString res (simple_world w))
  /\ (forall r w,
     simple_state (st (checkLocation r w)) =
     Simple.st (Simple.checkLocation (simple_state r) (simple_world w)))
  /\ (forall res w,
     simple_world (checkLocation_resumed Number_toString res w) =
     Simple.checkLocation_resumed Number_toString res (simple_world w))
  /\ (forall r w b location,
     building r = Some b -> userLocation r = Some location ->
     exists q q',
       requests (checkLocation r w) = requests w ++ [q]
       /\ Simple.requests (Simple.checkLocation (simple_state r) (simple_world w))
          = requests w ++ [q']
       /\ url q = url q' /\ method q = method q' /\ headers q = headers q'
       /\ member "building_name" (body q) = member "building_name" (body q')
       /\ member "city" (body q) = member "city" (body q')
       /\ member "country" (body q) = member "country" (body q')
       /\ member "user_location" (body q) = Some (json_of_sample location)
       /\ member "user_location" (body q') = None
       /\ member "user_lat" (body q') = Some (json_of_number (lat location))
       /\ member "user_lng" (body q') = Some (json_of_number (lng location))
       /\ member "user_lat" (body q) = None
       /\ member "user_lng" (body q) = None)
  /\ (forall w,
     simple_state (st (getUserLocation w)) =
     Simple.st (Simple.getUserLocation (simple_world w)))
  /\ (forall w, geolocation w = true ->
     acquisitions (getUserLocation w) =
       acquisitions w ++ [{| enableHighAccuracy := true; timeout := 15000;
                             maximumAge := 0 |}]
     /\ Simple.acquisitions (Simple.getUserLocation (simple_world w)) =
       acquisitions w ++ [{| enableHighAccuracy := true; timeout := 10000;
                             maximumAge := 0 |}])
  /\ (forall c now w,
     simple_state (st (onPosition c now w)) =
     Simple.st (Simple.onPosition c (simple_world w)))
  /\ (forall message w,
     simple_state (st (onPositionError message w)) =
     Simple.st (Simple.onPositionError message (simple_world w))).
Proof.
  repeat apply conj.
  - intros r w. unfold searchBuilding, Simple.searchBuilding.
    cbn -[trimStart].
    destruct (truthy_string (trimStart (buildingName r))); reflexivity.
  - intros res w. unfold searchBuilding_resumed, Simple.searchBuilding_resumed.
    destruct (awaitJson _ _ res); reflexivity.
  - intros r w. unfold checkLocation, Simple.checkLocation. cbn.
    destruct (building r), (userLocation r); reflexivity.
  - intros res w. unfold checkLocation_resumed, Simple.checkLocation_resumed.
    destruct (awaitJson _ _ res); reflexivity.
  - intros r w b location Hb Hl. do 2 eexists.
    split; [apply (checkLocation_requests r w b location Hb Hl)|].
    split; [unfold Simple.checkLocation; cbn; rewrite Hb, Hl; reflexivity|].
    cbn. unfold member, stringify.
    destruct (or_undefined (city r)), (or_undefined (country r)); cbn;
      destruct (3 <=? Z.of_nat (length (locationHistory r))); cbn;
      repeat split.
  - intros w. unfold getUserLocation, Simple.getUserLocation,
      ifGeolocation, Simple.ifGeolocation, seq_act, Simple.seq_act. cbn.
    destruct (geolocation w); reflexivity.
  - intros w Hgeo. unfold getUserLocation, Simple.getUserLocation,
      ifGeolocation, Simple.ifGeolocation, seq_act, Simple.seq_act. cbn.
    rewrite Hgeo. split; reflexivity.
  - intros c now w. handlers. cases; reflexivity.
  - intros message w. handlers. cases; reflexivity.
Qed.

End Properties.

(** * Examples *)

(** Twelve successful acquisitions leave samples 3 to 12 in the buffer. *)
Example twelve_acquisitions_keep_last_ten :
  locationHistory (st (run exampleToString twelveAcquisitions (mounted true)))
  = exampleSample <$> [3; 4; 5; 6; 7; 8; 9; 10; 11; 12].
Proof. vm_compute. reflexivity. Qed.

(** The request of the example render: four samples in the buffer, the last
    three are sent, each with its coordinates, accuracy and time stamp. *)
Lemma checkLocation_history_hint_example :
  let written (n : Z) : json :=
    JObj [("lat", JNum 40.75%float); ("lng", JNum (-73.5)%float);
          ("accuracy", JNum 12.5%float); ("timestamp", JInt n)] in
  building exampleRender = Some exampleBuilding
  /\ userLocation exampleRender = Some (exampleSample 4)
  /\ exists q,
       requests (checkLocation exampleRender exampleWorld) = requests exampleWorld ++ [q]
       /\ member "user_location" (body q) = Some (written 4)
       /\ member "location_history" (body q) =
          Some (JArr [written 2; written 3; written 4]).
Proof.
  cbn zeta. split; [reflexivity|]. split; [reflexivity|].
  destruct (checkLocation_history_hint exampleRender exampleWorld
              exampleBuilding (exampleSample 4) eq_refl eq_refl)
    as [(q & Hq & Hlocation & _ & Hhistory) _].
  exists q. split; [exact Hq|]. split; [exact Hlocation|].
  destruct Hhistory as [H _]; [cbn; lia|exact H].
Defined.

(** A resolved building but no current sample: the error slot is set and no
    request leaves. *)
Lemma checkLocation_precondition_example :
  let r := st (setUserLocation None exampleWorld) in
  (building r = None \/ userLocation r = None)
  /\ error (st (checkLocation r exampleWorld)) =
     Some "Building and user location are required"
  /\ requests (checkLocation r exampleWorld) = [].
Proof.
  cbn zeta. split; [right; reflexivity|].
  destruct (checkLocation_precondition (st (setUserLocation None exampleWorld))
              exampleWorld (or_intror eq_refl)) as (_ & Herror & Hrequests & _).
  split; [exact Herror|exact Hrequests].
Defined.





(** Monitoring delivers one sample and then fails: the component says it no
    longer monitors and keeps the sample, but watch 1 is still registered,
    [watchId] is still 1 and "Start Monitoring" has no effect. *)
Lemma watch_error_keeps_watch_example :
  let w := run exampleToString monitoringFails (mounted true) in
  let watch := {| watch_render := st (mounted true);
                  watch_options := acquisitionOptions |} in
  let w' := step exampleToString (WatchError 1 "Timeout expired") w in
  reachable exampleToString w
  /\ watches w !! 1 = Some watch
  /\ error (st w') = Some "Error monitoring location: Timeout expired"
  /\ isMonitoring (st w') = false
  /\ userLocation (st w') = Some (exampleSample 7)
  /\ watches w' !! 1 = Some watch
  /\ watchId (st w') = Some 1
  /\ step exampleToString ClickStartMonitoring w' = w'.
Proof.
  cbn zeta.
  assert (Hreach : reachable exampleToString
                     (run exampleToString monitoringFails (mounted true))).
  { exists true, monitoringFails. reflexivity. }
  assert (Hwatch : watches (run exampleToString monitoringFails (mounted true)) !! 1
                   = Some {| watch_render := st (mounted true);
                             watch_options := acquisitionOptions |}).
  { vm_compute. reflexivity. }
  destruct (watch_error_keeps_watch exampleToString _ 1 _ "Timeout expired"
              Hreach Hwatch)
    as (Herror & Hmon & Huser & _ & Hwatches & Hid & Hstart).
  split; [exact Hreach|]. split; [exact Hwatch|].
  split; [exact Herror|]. split; [exact Hmon|].
  split; [rewrite Huser; reflexivity|].
  split; [rewrite Hwatches; exact Hwatch|].
  split; [rewrite Hid; reflexivity|].
  apply Hstart. discriminate.
Defined.

(** The progress of the acquisition started at mounting: 30 after three
    ticks, 100 after ten and after fifteen, and 100 when the position arrives
    after three ticks. *)
Lemma locating_progress_example :
  let w := initialWorld true in
  let pending k := ticks exampleToString 1 k (getUserLocation w) in
  geolocation w = true
  /\ locatingProgress (st (pending 0%nat)) = 0
  /\ locatingProgress (st (pending 3%nat)) = 30
  /\ locatingProgress (st (pending 10%nat)) = 100
  /\ locatingProgress (st (pending 15%nat)) = 100
  /\ locatingProgress
       (st (step exampleToString (Position exampleCoords 9) (pending 3%nat))) = 100.
Proof.
  cbn zeta. split; [reflexivity|].
  destruct (locating_progress exampleToString (initialWorld true) eq_refl)
    as (H0 & _ & Hk & _ & _ & _ & Hdone & _).
  split; [exact H0|].
  split; [exact (Hk 3%nat)|]. split; [exact (Hk 10%nat)|].
  split; [exact (Hk 15%nat)|].
  exact (proj1 (Hdone 3%nat exampleCoords 9)).
Defined.

(** Verification in the example render: both components send to the same
    address, the simple one with [user_lat], the enhanced one with
    [user_location]. *)
Lemma simple_component_simulated_example :
  exists q q',
    requests (checkLocation exampleRender exampleWorld) = [q]
    /\ Simple.requests
         (Simple.checkLocation (simple_state exampleRender) (simple_world exampleWorld))
       = [q']
    /\ url q = url q'
    /\ member "user_location" (body q) = Some (json_of_sample (exampleSample 4))
    /\ member "user_lat" (body q') = Some (JNum 40.75%float).
Proof.
  destruct (simple_component_simulated exampleToString)
    as (_ & _ & _ & _ & Hrequest & _).
  destruct (Hrequest exampleRender exampleWorld exampleBuilding (exampleSample 4)
              eq_refl eq_refl)
    as (q & q' & Hq & Hq' & Hurl & _ & _ & _ & _ & _ & Hlocation & _ & Hlat & _).
  exists q, q'. split; [exact Hq|]. split; [exact Hq'|].
  split; [exact Hurl|]. split; [exact Hlocation|exact Hlat].
Defined.

(** C9, counterexample.  In the example render the two components do not
    send the same verification request, and they do not ask the browser for
    the position with the same options. *)
Lemma simple_request_differs :
  Simple.requests
    (Simple.checkLocation (simple_state exampleRender) (simple_world exampleWorld))
  <> requests (checkLocation exampleRender exampleWorld)
  /\ Simple.acquisitions (Simple.getUserLocation (simple_world exampleWorld))
     <> acquisitions (getUserLocation exampleWorld).
Proof. split; vm_compute; discriminate. Qed.

(** A verified session in which the building is looked up again: the
    result of the verification is there until the new building arrives and
    is gone once it is stored, also after a later acquisition. *)
Lemma searchBuilding_success_clears_result_example :
  let w := run exampleToString verifiedSession (mounted true) in
  let found := BuildingResponse (Ok (BodyParsed exampleBuilding)) in
  checkResult (st w) = Some exampleCheckResult
  /\ awaitingBuilding w <> 0%nat
  /\ building (st (step exampleToString found w)) = Some exampleBuilding
  /\ checkResult
       (st (run exampleToString [ClickGetLocation; Position exampleCoords 2]
              (step exampleToString found w))) = None.
Proof.
  cbn zeta. split; [vm_compute; reflexivity|]. split; [vm_compute; discriminate|].
  destruct (searchBuilding_success_clears_result exampleToString exampleRender
              (run exampleToString verifiedSession (mounted true)) exampleBuilding)
    as (_ & _ & _ & _ & _ & _ & _ & Hlater).
  apply (Hlater [ClickGetLocation; Position exampleCoords 2]).
  - vm_compute. discriminate.
  - repeat constructor.
Defined.

(** * Further properties of the enhanced component *)

(** Rewrites with the equations the case analysis has produced. *)
Ltac recall :=
  repeat match goal with
    | H : ?x = _ |- context [?x] => rewrite H
    end;
  cbn.

Section Further.

Variable Number_toString : float -> string.

#[local] Abbreviation step := (step Number_toString).
#[local] Abbreviation run := (run Number_toString).
#[local] Abbreviation reachable := (reachable Number_toString).

(** A property of the mounted component that every event keeps holds in
    every world the component reaches. *)
Lemma run_invariant (P : World -> Prop) :
  (forall geo, P (mounted geo)) ->
  (forall e w, reachable w -> P w -> P (step e w)) ->
  forall geo events, P (run events (mounted geo)).
Proof.
  intros Hinit Hstep geo events.
  induction events as [|e events IH] using rev_ind; [apply Hinit|].
  rewrite (run_app Number_toString). apply Hstep; [|exact IH].
  now exists geo, events.
Qed.

(** ** The loading flag *)

Lemma step_serialised e w : serialised w -> serialised (step e w).
Proof.
  unfold serialised, pending.
  destruct e; handlers; cases; recall; rewrite ?length_app; cbn; lia.
Qed.

Lemma run_serialised geo events : serialised (run events (mounted geo)).
Proof.
  apply (run_invariant serialised).
  - intros []; reflexivity.
  - intros e w _. apply step_serialised.
Qed.

(** X1.  The controls that start a lookup, an acquisition or a verification
    are disabled while [loading] is set, and every such operation sets it
    until it completes: whatever happens, at most one of these operations is
    waiting, and [loading] is set exactly while one is. *)
Theorem loading_serialises geo events :
  let w := run events (mounted geo) in
  (pending w <= 1)%nat
  /\ (loading (st w) = true <-> pending w = 1%nat)
  /\ (loading (st w) = false <-> pending w = 0%nat).
Proof.
  cbn zeta. pose proof (run_serialised geo events) as H.
  unfold serialised in H.
  destruct (loading (st (run events (mounted geo)))); rewrite H;
    repeat split; intros; (lia || congruence).
Qed.

(** ** The progress timer *)

Lemma step_timers_owned e w :
  serialised w -> timers_owned w -> timers_owned (step e w).
Proof.
  unfold serialised, pending, timers_owned.
  intros Hser (Hidle & Hown & Hid & Hnext).
  assert (Hcleared : forall t, locatingTimer w = t ->
            (forall i d, delete_timer t (intervals w) !! i = Some d ->
                         locatingTimer w = Some i /\ d = 200)
            /\ delete_timer t (intervals w) = ∅).
  { intros t Ht. split.
    - intros i d. destruct t as [j|]; cbn; [|apply Hown].
      intros [_ H]%lookup_delete_Some. now apply Hown.
    - apply map_empty. intros i. destruct t as [j|]; cbn.
      + destruct (decide (j = i)) as [->|Hne]; [apply lookup_delete_eq|].
        rewrite lookup_delete_ne by assumption.
        destruct (intervals w !! i) as [d|] eqn:Hi; [|reflexivity].
        destruct (Hown i d Hi) as [Href _]. congruence.
      + destruct (intervals w !! i) as [d|] eqn:Hi; [|reflexivity].
        destruct (Hown i d Hi) as [Href _]. congruence. }
  destruct e; handlers; cases; recall;
    try exact (conj Hidle (conj Hown (conj Hid Hnext))).
  1: { (* a new acquisition: no timer was running *)
    rewrite Hidle by (destruct (acquisitions w); [reflexivity|cbn in Hser; lia]).
    split; [intros Hnil; now destruct (acquisitions w)|]. split; [|split].
    - intros id delay [[<- <-]|[_ Habsurd]]%lookup_insert_Some; [auto|].
      now rewrite lookup_empty in Habsurd.
    - intros id [= <-]. lia.
    - lia. }
  all: destruct (Hcleared _ eq_refl) as [Hsub Hempty]; cbn in Hsub, Hempty.
  all: split; [intros _; exact Hempty|]; split; [|split; [|exact Hnext]].
  all: try (intros id' delay Hl; destruct (Hsub id' delay Hl) as [Href ->];
            split; congruence).
  all: try (intros id' Hid'; apply Hid; exact Hid').
  all: try discriminate.
Qed.

Lemma mounted_timers_owned geo : timers_owned (mounted geo).
Proof.
  destruct geo; (split; [|split; [|split]]); cbn; try lia; try discriminate.
  - intros id delay [[<- <-]|[_ Habsurd]]%lookup_insert_Some; [auto|].
    now rewrite lookup_empty in Habsurd.
  - intros id [= <-]. lia.
  - reflexivity.
Qed.

Lemma run_timers_owned geo events : timers_owned (run events (mounted geo)).
Proof.
  apply (run_invariant (fun w => serialised w /\ timers_owned w)).
  - intros geo'. split; [apply (run_serialised geo' [])|apply mounted_timers_owned].
  - intros e w _ [Hser Hown].
    split; [now apply step_serialised|now apply step_timers_owned].
Qed.

(** X2.  The progress timer never leaks: whatever happens, an interval that
    runs is the one [locatingTimer.current] names and has a delay of 200 ms,
    so at most one runs, and none runs unless a one-shot acquisition is
    pending. *)
Theorem progress_timer_never_leaks geo events :
  let w := run events (mounted geo) in
  (acquisitions w = [] -> intervals w = ∅)
  /\ (forall id delay, intervals w !! id = Some delay ->
        locatingTimer w = Some id /\ delay = 200)
  /\ (forall id1 id2, is_Some (intervals w !! id1) ->
        is_Some (intervals w !! id2) -> id1 = id2).
Proof.
  cbn zeta. destruct (run_timers_owned geo events) as (Hidle & Hown & _).
  split; [exact Hidle|]. split; [exact Hown|].
  intros id1 id2 [d1 H1] [d2 H2].
  destruct (Hown id1 d1 H1) as [Href1 _], (Hown id2 d2 H2) as [Href2 _].
  congruence.
Qed.

(** X12.  Unmounting stops the progress timer but releases no watch: the
    cleanup tests the [watchId] of the first render, which is [null], so
    [clearWatch] is never called and every registered watch stays
    registered. *)
Theorem unmount_keeps_watches geo events :
  let w := run events (mounted geo) in
  watches (onUnmount w) = watches w
  /\ intervals (onUnmount w) = ∅
  /\ st (onUnmount w) = st w.
Proof.
  cbn zeta. destruct (run_timers_owned geo events) as (_ & Hown & Hid & _).
  unfold onUnmount, seq_act, readLocatingTimer, skip. cbn.
  destruct (locatingTimer (run events (mounted geo))) as [id|] eqn:Href.
  - destruct (Z.eqb_spec id 0) as [->|_]; [specialize (Hid 0 eq_refl); lia|].
    cbn. repeat split. apply map_empty. intros i.
    destruct (decide (id = i)) as [->|Hne]; [apply lookup_delete_eq|].
    rewrite lookup_delete_ne by assumption.
    destruct (intervals _ !! i) as [d|] eqn:Hi; [|reflexivity].
    destruct (Hown i d Hi) as [Href' _]. congruence.
  - repeat split. apply map_empty. intros i.
    destruct (intervals _ !! i) as [d|] eqn:Hi; [|reflexivity].
    destruct (Hown i d Hi) as [Href' _]. congruence.
Qed.

(** ** The progress value *)

Lemma step_progress_in_steps e w :
  progress_in_steps w -> progress_in_steps (step e w).
Proof.
  unfold progress_in_steps. intros (k & Hk & Hp).
  assert (Hzero : exists k', (k' <= 10)%nat /\ 0 = 10 * Z.of_nat k')
    by (exists 0%nat; split; lia).
  assert (Hfull : exists k', (k' <= 10)%nat /\ 100 = 10 * Z.of_nat k')
    by (exists 10%nat; split; lia).
  destruct e; handlers; cases; eauto.
  all: exists (S k); split; lia.
Qed.

(** X3.  Whatever happens, the progress value is one of 0, 10, 20, ...,
    100. *)
Theorem progress_stays_in_range geo events :
  let p := locatingProgress (st (run events (mounted geo))) in
  0 <= p <= 100 /\ exists k, p = 10 * Z.of_nat k.
Proof.
  cbn zeta.
  destruct (run_invariant progress_in_steps) with (geo := geo) (events := events)
    as (k & Hk & Hp).
  - intros []; exists 0%nat; split; (lia || reflexivity).
  - intros e w _. apply step_progress_in_steps.
  - rewrite Hp. split; [lia|now exists k].
Qed.

(** ** The subscription *)

Lemma subscribed_unchanged w w' :
  watches w' = watches w ->
  watchId (st w') = watchId (st w) ->
  isMonitoring (st w') = isMonitoring (st w) ->
  subscribed w -> subscribed w'.
Proof. unfold subscribed. intros -> -> ->. auto. Qed.

Lemma step_subscribed e w :
  stale_watches w -> subscribed w -> subscribed (step e w).
Proof.
  intros Hstale Hsub.
  destruct e;
    try (apply (subscribed_unchanged w); [| | |exact Hsub];
         handlers; cases; reflexivity).
  - (* Start Monitoring *)
    cbn [step]. destruct (isMonitoring (st w)) eqn:Hm; [exact Hsub|].
    unfold startLocationMonitoring.
    destruct (watchId (st w)) as [id|] eqn:Hid; [exact Hsub|].
    destruct Hsub as [Hwatch _]. rewrite Hid in Hwatch.
    unfold subscribed. handlers. cbn. destruct (geolocation w); cbn.
    + split; [|discriminate]. eexists. rewrite Hwatch. reflexivity.
    + rewrite Hid. split; [exact Hwatch|discriminate].
  - (* Stop Monitoring *)
    cbn [step]. destruct (isMonitoring (st w)) eqn:Hm; [|exact Hsub].
    destruct Hsub as [Hwatch Hmon]. unfold stopLocationMonitoring, subscribed.
    destruct (watchId (st w)) as [id|] eqn:Hid; [|now destruct Hmon].
    cbn. destruct Hwatch as [watch ->]. split; [|discriminate].
    apply delete_singleton_eq.
  - (* the error callback of a watch *)
    cbn [step]. destruct (watches w !! id) as [watch|] eqn:Hw; [|exact Hsub].
    unfold onWatchError, stopLocationMonitoring.
    rewrite (Hstale id watch Hw).
    destruct Hsub as [Hwatch Hmon]. unfold subscribed. cbn.
    split; [exact Hwatch|discriminate].
Qed.

Lemma run_subscribed geo events : subscribed (run events (mounted geo)).
Proof.
  apply (run_invariant subscribed).
  - intros []; split; cbn; (reflexivity || discriminate).
  - intros e w Hreach. apply step_subscribed.
    now apply (reachable_watch_renders Number_toString).
Qed.

(** X4.  Starting is idempotent: whatever happens, at most one watch is
    registered.  [watchId] is [null] exactly when none is, and otherwise
    names the registered one; and while [isMonitoring] is set, a watch is
    registered. *)
Theorem at_most_one_watch geo events :
  let w := run events (mounted geo) in
  (size (watches w) <= 1)%nat
  /\ (watchId (st w) = None <-> watches w = ∅)
  /\ (forall id, watchId (st w) = Some id <-> is_Some (watches w !! id))
  /\ (isMonitoring (st w) = true -> watches w <> ∅).
Proof.
  cbn zeta. destruct (run_subscribed geo events) as [Hwatch Hmon].
  destruct (watchId (st (run events (mounted geo)))) as [id|] eqn:Hid.
  - destruct Hwatch as [watch Hwatch]. rewrite Hwatch.
    rewrite map_size_singleton. split; [lia|]. split; [|split].
    + split; [discriminate|]. intros Habsurd.
      apply (f_equal (fun m => m !! id)) in Habsurd.
      rewrite lookup_singleton_eq, lookup_empty in Habsurd. discriminate.
    + intros id'. split.
      * intros [= <-]. rewrite lookup_singleton_eq. eauto.
      * intros [watch' H']. apply lookup_singleton_Some in H' as [-> _].
        reflexivity.
    + intros _ Habsurd. apply (f_equal (fun m => m !! id)) in Habsurd.
      rewrite lookup_singleton_eq, lookup_empty in Habsurd. discriminate.
  - rewrite Hwatch, map_size_empty. split; [lia|]. split; [|split].
    + split; reflexivity.
    + intros id'. rewrite lookup_empty. split; [discriminate|].
      intros [? H']. discriminate.
    + intros Hm. now destruct (Hmon Hm).
Qed.

(** X5.  Clicking "Stop Monitoring" while the component monitors releases
    the subscription: no watch is registered afterwards, [watchId] is [null]
    and [isMonitoring] is unset; the current sample, the history and the
    error slot are as before. *)
Theorem stop_monitoring_releases w :
  reachable w -> isMonitoring (st w) = true ->
  let w' := step ClickStopMonitoring w in
  watches w' = ∅
  /\ watchId (st w') = None
  /\ isMonitoring (st w') = false
  /\ userLocation (st w') = userLocation (st w)
  /\ locationHistory (st w') = locationHistory (st w)
  /\ error (st w') = error (st w).
Proof.
  intros (geo & events & ->) Hm.
  destruct (run_subscribed geo events) as [Hwatch Hmon].
  cbn [step]. rewrite Hm. unfold stopLocationMonitoring.
  destruct (watchId (st (run events (mounted geo)))) as [id|] eqn:Hid;
    [|now destruct (Hmon Hm)].
  destruct Hwatch as [watch Hwatch]. cbn. rewrite Hwatch.
  repeat split. apply delete_singleton_eq.
Qed.

(** ** The current sample and the history *)

Lemma last_lastn {A} (n : nat) (l : list A) :
  (0 < n)%nat -> last (lastn n l) = last l.
Proof.
  intros Hn. destruct (lastn_suffix n l) as [older Hl].
  destruct (lastn n l) as [|x kept] eqn:Hkept.
  - assert (Hlen : length (lastn n l) = 0%nat) by now rewrite Hkept.
    rewrite length_lastn in Hlen. destruct l; [reflexivity|].
    cbn [length] in Hlen. lia.
  - rewrite Hl. now rewrite last_app_cons.
Qed.

Lemma last_addToHistory x prev : last (addToHistory x prev) = Some x.
Proof.
  rewrite addToHistory_lastn, last_lastn by lia. apply last_snoc.
Qed.

Lemma step_current_is_newest e w :
  userLocation (st w) = last (locationHistory (st w)) ->
  userLocation (st (step e w)) = last (locationHistory (st (step e w))).
Proof.
  intros H.
  destruct e; handlers; cases; try congruence;
    symmetry; apply last_addToHistory.
Qed.

(** X6.  Whatever happens, the current sample is the newest entry of the
    history: both are absent, or [userLocation] is the last element of
    [locationHistory]. *)
Theorem current_sample_is_newest geo events :
  let w := run events (mounted geo) in
  userLocation (st w) = last (locationHistory (st w)).
Proof.
  apply (run_invariant
           (fun w => userLocation (st w) = last (locationHistory (st w)))).
  - intros []; reflexivity.
  - intros e w _. apply step_current_is_newest.
Qed.

(** ** The map link *)

Lemma step_linked e w :
  linked Number_toString w -> linked Number_toString (step e w).
Proof.
  unfold linked. intros H.
  destruct e; handlers; cases; recall; reflexivity.
Qed.

(** X7.  Whatever happens, the map link is the one derived from the resolved
    building, at zoom 18 and with its coordinates, and there is no link when
    there is no building. *)
Theorem map_link_follows_building geo events :
  let w := run events (mounted geo) in
  mapUrl (st w) = mapLink Number_toString <$> building (st w).
Proof.
  apply (run_invariant (linked Number_toString)).
  - intros []; reflexivity.
  - intros e w _. apply step_linked.
Qed.

(** ** Without geolocation *)

Lemma step_unlocated e w : unlocated w -> unlocated (step e w).
Proof.
  intros (Hgeo & Hloc & Hhist & Hmon & Hid & Hw & Hi & Hacq & Hcheck & Hreq).
  assert (Hsame : unlocated w) by (repeat split; assumption).
  destruct e; cbn [step];
    rewrite ?Hloc, ?Hmon, ?Hacq, ?Hcheck, ?Hw, ?Hi, ?lookup_empty;
    try exact Hsame;
    try (destruct (building (st w)); exact Hsame).
  all: handlers; cbn; rewrite ?Hgeo, ?Hid; cases.
  all: repeat split; try assumption; try reflexivity.
  all: try (apply Forall_app; split; [assumption|repeat constructor]).
  all: congruence.
Qed.

(** X8.  In a browser without geolocation the component never gets a
    location: after mounting the error slot says so, and whatever happens
    afterwards there is no current sample, no history, no watch, no timer
    and no pending acquisition, [isMonitoring] stays unset, and no
    verification request is ever sent (the only requests are building
    lookups). *)
Theorem without_geolocation events :
  error (st (mounted false)) = Some "Geolocation is not supported by your browser"
  /\ let w := run events (mounted false) in
     userLocation (st w) = None
     /\ locationHistory (st w) = []
     /\ isMonitoring (st w) = false
     /\ watches w = ∅
     /\ intervals w = ∅
     /\ acquisitions w = []
     /\ awaitingCheck w = 0%nat
     /\ Forall (fun q => url q = "http://localhost:8000/api/building") (requests w).
Proof.
  split; [reflexivity|]. cbn zeta.
  assert (H : unlocated (run events (mounted false))).
  { induction events as [|e events IH] using rev_ind.
    - repeat split. constructor.
    - rewrite (run_app Number_toString). now apply step_unlocated. }
  destruct H as (_ & Hloc & Hhist & Hmon & _ & Hw & Hi & Hacq & Hcheck & Hreq).
  repeat split; assumption.
Qed.

(** ** The requests *)

Lemma step_requests e w :
  Forall wellFormedRequest (requests w) ->
  Forall wellFormedRequest (requests (step e w)).
Proof.
  intros H.
  destruct e; handlers; cases; try exact H.
  all: apply Forall_app; split; [exact H|].
  all: constructor; [|constructor].
  all: unfold wellFormedRequest; cbn; auto.
Qed.

(** X9.  Whatever happens, every request the component has sent is a [POST]
    with the header [Content-Type: application/json] to the building
    address or to the check-location address of the service. *)
Theorem requests_are_json_posts geo events :
  Forall wellFormedRequest (requests (run events (mounted geo))).
Proof.
  apply (run_invariant (fun w => Forall wellFormedRequest (requests w))).
  - intros []; constructor.
  - intros e w _. apply step_requests.
Qed.

(** ** Building lookup: the name *)

Lemma find_whiteSpace a rest :
  asciiSpace a = true ->
  List.find (fun w => startsWith w (String a rest)) whiteSpace
  = Some (String a EmptyString).
Proof.
  destruct a as [[] [] [] [] [] [] [] []]; intros H; vm_compute in H;
    try discriminate H; vm_compute; reflexivity.
Qed.

Lemma find_visible a rest :
  visibleAscii a = true ->
  List.find (fun w => startsWith w (String a rest)) whiteSpace = None.
Proof.
  destruct a as [[] [] [] [] [] [] [] []]; intros H; vm_compute in H;
    try discriminate H; vm_compute; reflexivity.
Qed.

Lemma trimStart_from_blank s :
  blank s = true ->
  forall fuel, (String.length s <= fuel)%nat -> trimStart_from fuel s = "".
Proof.
  induction s as [|a s IH]; intros Hblank fuel Hfuel.
  - now destruct fuel.
  - cbn [blank] in Hblank. apply andb_true_iff in Hblank as [Ha Hs].
    destruct fuel as [|fuel]; [cbn in Hfuel; lia|].
    cbn [trimStart_from]. rewrite (find_whiteSpace a s Ha).
    apply (IH Hs). cbn in Hfuel. lia.
Qed.

(** X10.  A building name that is empty or made of spaces, tabs and line
    breaks only is refused before anything is sent: [searchBuilding] stores
    "Please enter a building name" in the error slot and does nothing
    else; in particular no request leaves and [loading] is not set. *)
Theorem searchBuilding_blank_name r w :
  blank (buildingName r) = true ->
  searchBuilding r w = setError (Some "Please enter a building name") w
  /\ requests (searchBuilding r w) = requests w
  /\ loading (st (searchBuilding r w)) = loading (st w)
  /\ awaitingBuilding (searchBuilding r w) = awaitingBuilding w.
Proof.
  intros Hblank.
  assert (Heq : searchBuilding r w =
                setError (Some "Please enter a building name") w).
  { unfold searchBuilding, trimStart.
    now rewrite (trimStart_from_blank _ Hblank). }
  rewrite Heq. repeat split.
Qed.

(** X11.  A building name that starts with a visible ASCII character is
    looked up: [searchBuilding] sets [loading], clears the error slot and
    sends one request to the building address whose [name] is the name as
    typed (not trimmed), whose [city] and [country] are the typed values, and
    which has no [city] or [country] member at all when that field is
    empty. *)
Theorem searchBuilding_sends_name_as_typed r w a rest :
  buildingName r = String a rest -> visibleAscii a = true ->
  exists q,
    requests (searchBuilding r w) = requests w ++ [q]
    /\ url q = "http://localhost:8000/api/building"
    /\ member "name" (body q) = Some (JStr (buildingName r))
    /\ member "city" (body q) =
       (if decide (city r = "") then None else Some (JStr (city r)))
    /\ member "country" (body q) =
       (if decide (country r = "") then None else Some (JStr (country r)))
    /\ loading (st (searchBuilding r w)) = true
    /\ error (st (searchBuilding r w)) = None
    /\ awaitingBuilding (searchBuilding r w) = S (awaitingBuilding w).
Proof.
  intros Hname Hvisible. unfold searchBuilding, trimStart. rewrite Hname.
  cbn [String.length trimStart_from]. rewrite (find_visible a rest Hvisible).
  cbn [truthy_string negb]. eexists. split; [reflexivity|].
  split; [reflexivity|]. cbn. unfold member, stringify, or_undefined.
  destruct (city r) as [|c1 c]; destruct (country r) as [|c2 c']; cbn;
    repeat split.
Qed.

(** ** Confidence colour, by what the label contains *)

(** X13.  The result card is green exactly when the label contains
    "Definitely inside", whatever else it contains, and red exactly when it
    contains none of "Definitely inside", "Likely inside", "uncertain" and
    "Likely outside". *)
Theorem confidence_colour_by_content c :
  (getConfidenceColor (Some c) = "#4caf50" <-> Contains c "Definitely inside")
  /\ (getConfidenceColor (Some c) = "#f44336" <->
      ~ Contains c "Definitely inside" /\ ~ Contains c "Likely inside"
      /\ ~ Contains c "uncertain" /\ ~ Contains c "Likely outside").
Proof.
  rewrite <- !includes_spec. unfold getConfidenceColor.
  destruct c as [|a c]; [cbn; split; split; intros; intuition discriminate|].
  cbn [truthy_string negb].
  destruct (includes (String a c) "Definitely inside"),
    (includes (String a c) "Likely inside"),
    (includes (String a c) "uncertain"),
    (includes (String a c) "Likely outside");
    split; split; intros; intuition discriminate.
Qed.

(** ** Completing an operation *)

(** X14.  When a pending one-shot acquisition completes, nothing is left
    behind: [loading] is unset, the progress is 100, no interval runs and no
    operation is waiting.  With a position, the current sample is the new
    one and it is the newest entry of the history, and the error slot is as
    before; with an error, the error slot holds "Error getting location: "
    followed by the message, and the current sample and the history are as
    before. *)
Theorem acquisition_completes w :
  reachable w -> acquisitions w <> [] ->
  (forall c now,
     let w' := step (Position c now) w in
     userLocation (st w') = Some (newLocation c now)
     /\ last (locationHistory (st w')) = Some (newLocation c now)
     /\ error (st w') = error (st w)
     /\ loading (st w') = false /\ locatingProgress (st w') = 100
     /\ intervals w' = ∅ /\ pending w' = 0%nat)
  /\ (forall message,
     let w' := step (PositionError message) w in
     error (st w') = Some ("Error getting location: " +:+ message)
     /\ userLocation (st w') = userLocation (st w)
     /\ locationHistory (st w') = locationHistory (st w)
     /\ loading (st w') = false /\ locatingProgress (st w') = 100
     /\ intervals w' = ∅ /\ pending w' = 0%nat).
Proof.
  intros (geo & events & ->) Hacq.
  pose proof (run_serialised geo events) as Hser.
  destruct (run_timers_owned geo events) as (_ & Hown & _).
  set (w := run events (mounted geo)) in *.
  unfold serialised, pending in Hser.
  assert (Hcleared : delete_timer (locatingTimer w) (intervals w) = ∅).
  { apply map_empty. intros i. destruct (locatingTimer w) as [j|] eqn:Href; cbn.
    - destruct (decide (j = i)) as [->|Hne]; [apply lookup_delete_eq|].
      rewrite lookup_delete_ne by assumption.
      destruct (intervals w !! i) as [d|] eqn:Hi; [|reflexivity].
      destruct (Hown i d Hi) as [Href' _]. congruence.
    - destruct (intervals w !! i) as [d|] eqn:Hi; [|reflexivity].
      destruct (Hown i d Hi) as [Href' _]. congruence. }
  destruct (acquisitions w) as [|o rest] eqn:Ha; [congruence|].
  assert (Hrest : rest = [] /\ awaitingBuilding w = 0%nat /\ awaitingCheck w = 0%nat).
  { destruct (loading (st w)), rest; cbn in Hser; repeat split; (lia || discriminate). }
  destruct Hrest as (-> & Hb & Hc).
  split; [intros c now|intros message]; cbn [step]; rewrite Ha;
    unfold pending; handlers; cbn -[addToHistory];
    destruct (locatingTimer w); cbn -[addToHistory] in *;
    rewrite ?Ha, ?Hb, ?Hc, ?last_addToHistory; cbn;
    repeat split; assumption.
Qed.

(** X16.  A verification that succeeds: clicking the check button on an idle
    component with a building and a current sample, and then receiving a
    successful response, sends exactly one request, stores the result,
    leaves the error slot empty and [loading] unset, and changes neither the
    building, the map link, the current sample nor the history. *)
Theorem verification_stores_result w b location data :
  building (st w) = Some b -> userLocation (st w) = Some location ->
  loading (st w) = false ->
  let w' := run [ClickCheck; CheckResponse (Ok (BodyParsed data))] w in
  checkResult (st w') = Some data
  /\ error (st w') = None
  /\ loading (st w') = false
  /\ length (requests w') = S (length (requests w))
  /\ awaitingCheck w' = awaitingCheck w
  /\ building (st w') = building (st w)
  /\ mapUrl (st w') = mapUrl (st w)
  /\ userLocation (st w') = userLocation (st w)
  /\ locationHistory (st w') = locationHistory (st w).
Proof.
  intros Hb Hl Hload.
  change (run [ClickCheck; CheckResponse (Ok (BodyParsed data))] w)
    with (step (CheckResponse (Ok (BodyParsed data))) (step ClickCheck w)).
  cbn [step]. rewrite Hb, Hl, Hload.
  unfold checkLocation. rewrite Hb, Hl. cbn.
  rewrite length_app. cbn. repeat split; (reflexivity || assumption || lia).
Qed.

(** ** While an operation is waiting *)


(** X18.  An event that sets [loading] starts an operation with an empty
    error slot: whenever [loading] goes from unset to set, the error slot is
    [null] afterwards. *)
Theorem operation_starts_without_error e w :
  loading (st w) = false -> loading (st (step e w)) = true ->
  error (st (step e w)) = None.
Proof.
  intros Hidle. destruct e; cbn [step]; rewrite ?Hidle;
    handlers; cases; congruence.
Qed.

End Further.

(** * Further properties of the simple component *)

(** X15.  In the simple component too, verification without a resolved
    building or without a location only stores "Building and user location
    are required" in the error slot: no request leaves and nothing else
    changes. *)
Theorem simple_checkLocation_precondition r w :
  Simple.building r = None \/ Simple.userLocation r = None ->
  Simple.checkLocation r w =
    Simple.setError (Some "Building and user location are required") w
  /\ Simple.requests (Simple.checkLocation r w) = Simple.requests w
  /\ Simple.awaitingCheck (Simple.checkLocation r w) = Simple.awaitingCheck w.
Proof.
  intros H.
  assert (Heq : Simple.checkLocation r w =
                Simple.setError (Some "Building and user location are required") w).
  { unfold Simple.checkLocation. destruct H as [H|H]; rewrite H; [reflexivity|].
    destruct (Simple.building r); reflexivity. }
  rewrite Heq. repeat split.
Qed.

(** * Further examples *)

(** Stopping the monitoring session of the example releases watch 1. *)
Lemma stop_monitoring_releases_example :
  reachable exampleToString monitoringWorld
  /\ isMonitoring (st monitoringWorld) = true
  /\ watches monitoringWorld !! 1 <> None
  /\ watches (step exampleToString ClickStopMonitoring monitoringWorld) = ∅
  /\ watchId (st (step exampleToString ClickStopMonitoring monitoringWorld)) = None.
Proof.
  assert (Hreach : reachable exampleToString monitoringWorld)
    by (exists true, monitoringFails; reflexivity).
  assert (Hmon : isMonitoring (st monitoringWorld) = true) by reflexivity.
  destruct (stop_monitoring_releases exampleToString monitoringWorld Hreach Hmon)
    as (Hwatches & Hid & _).
  split; [exact Hreach|]. split; [exact Hmon|].
  split; [vm_compute; discriminate|]. split; [exact Hwatches|exact Hid].
Defined.

(** A name of three spaces is refused. *)
Lemma searchBuilding_blank_name_example :
  let r := st (setBuildingName "   " exampleWorld) in
  blank (buildingName r) = true
  /\ error (st (searchBuilding r exampleWorld)) = Some "Please enter a building name"
  /\ requests (searchBuilding r exampleWorld) = [].
Proof.
  cbn zeta. split; [reflexivity|].
  destruct (searchBuilding_blank_name (st (setBuildingName "   " exampleWorld))
              exampleWorld eq_refl) as (Heq & Hrequests & _).
  split; [rewrite Heq; reflexivity|exact Hrequests].
Defined.

(** The lookup of the example render: the city is sent, the empty country
    is left out. *)
Lemma searchBuilding_sends_name_as_typed_example :
  buildingName exampleRender = String (Ascii.ascii_of_nat 69) "mpire State Building"
  /\ visibleAscii (Ascii.ascii_of_nat 69) = true
  /\ exists q,
       requests (searchBuilding exampleRender exampleWorld) = [q]
       /\ member "name" (body q) = Some (JStr "Empire State Building")
       /\ member "city" (body q) = Some (JStr "New York")
       /\ member "country" (body q) = None.
Proof.
  split; [reflexivity|]. split; [reflexivity|].
  destruct (searchBuilding_sends_name_as_typed exampleRender exampleWorld
              (Ascii.ascii_of_nat 69) "mpire State Building" eq_refl eq_refl)
    as (q & Hq & _ & Hname & Hcity & Hcountry & _).
  exists q. split; [exact Hq|]. split; [exact Hname|].
  split; [exact Hcity|exact Hcountry].
Defined.

(** The acquisition started at mounting fails. *)
Lemma acquisition_completes_example :
  let w' := step exampleToString (PositionError "User denied Geolocation")
              (mounted true) in
  reachable exampleToString (mounted true)
  /\ acquisitions (mounted true) <> []
  /\ error (st w') = Some "Error getting location: User denied Geolocation"
  /\ loading (st w') = false
  /\ locatingProgress (st w') = 100
  /\ intervals w' = ∅.
Proof.
  cbn zeta.
  assert (Hreach : reachable exampleToString (mounted true))
    by (exists true, []; reflexivity).
  assert (Hacq : acquisitions (mounted true) <> []) by discriminate.
  destruct (acquisition_completes exampleToString (mounted true) Hreach Hacq)
    as [_ Herror].
  destruct (Herror "User denied Geolocation")
    as (He & _ & _ & Hload & Hprogress & Hintervals & _).
  split; [exact Hreach|]. split; [exact Hacq|]. split; [exact He|].
  split; [exact Hload|]. split; [exact Hprogress|exact Hintervals].
Defined.

(** The simple component right after its first render. *)
Lemma simple_checkLocation_precondition_example :
  let r := simple_state initialState in
  let w := simple_world (initialWorld true) in
  (Simple.building r = None \/ Simple.userLocation r = None)
  /\ Simple.error (Simple.st (Simple.checkLocation r w)) =
     Some "Building and user location are required"
  /\ Simple.requests (Simple.checkLocation r w) = [].
Proof.
  cbn zeta. split; [left; reflexivity|].
  destruct (simple_checkLocation_precondition (simple_state initialState)
              (simple_world (initialWorld true)) (or_introl eq_refl))
    as (Heq & Hrequests & _).
  split; [rewrite Heq; reflexivity|exact Hrequests].
Defined.

(** Verifying once a building is found and a position is there. *)
Lemma verification_stores_result_example :
  let w' := run exampleToString
              [ClickCheck; CheckResponse (Ok (BodyParsed exampleCheckResult))]
              readyToCheck in
  building (st readyToCheck) = Some exampleBuilding
  /\ userLocation (st readyToCheck) = Some (exampleSample 1)
  /\ loading (st readyToCheck) = false
  /\ checkResult (st w') = Some exampleCheckResult
  /\ length (requests w') = 2%nat.
Proof.
  cbn zeta.
  assert (Hb : building (st readyToCheck) = Some exampleBuilding) by reflexivity.
  assert (Hl : userLocation (st readyToCheck) = Some (exampleSample 1))
    by reflexivity.
  assert (Hload : loading (st readyToCheck) = false) by reflexivity.
  destruct (verification_stores_result exampleToString readyToCheck
              exampleBuilding (exampleSample 1) exampleCheckResult Hb Hl Hload)
    as (Hresult & _ & _ & Hlen & _).
  split; [exact Hb|]. split; [exact Hl|]. split; [exact Hload|].
  split; [exact Hresult|]. rewrite Hlen. reflexivity.
Defined.


(** Checking while an old error is shown. *)
Lemma operation_starts_without_error_example :
  let w := setError (Some "Failed to find building") exampleWorld in
  loading (st w) = false
  /\ loading (st (step exampleToString ClickCheck w)) = true
  /\ error (st (step exampleToString ClickCheck w)) = None.
Proof.
  cbn zeta. split; [reflexivity|]. split; [reflexivity|].
  apply (operation_starts_without_error exampleToString ClickCheck
           (setError (Some "Failed to find building") exampleWorld));
    reflexivity.
Defined.
